(** * ASL detector: the capture-detect-render loop of [Main.py]

    A shallow embedding of [ASLDetectorGUI] (its [update_frame],
    [toggle_detection], [initialize_camera] and [release_camera] methods)
    together with the parts of its environment the methods talk to: the
    camera device behind [cv2.VideoCapture], the Tk timer queue behind
    [window.after], the widgets the methods write to, and the detection
    model behind [YOLO.predict] and [YOLO.names]. *)

From Stdlib Require Import ZArith NArith List String Ascii Bool Lia.
From Stdlib Require Import DecimalString DecimalN DecimalPos.
From Stdlib Require Import Floats.SpecFloat.
From stdpp Require Import base option list strings gmap.

Import ListNotations.
Local Open Scope Z_scope.
Local Open Scope string_scope.
Local Open Scope list_scope.

(** ** Python floats

    A Python [float] is an IEEE 754 binary64 number.  It is embedded as a
    [spec_float] (sign, mantissa, exponent; signed zeros, infinities and one
    NaN), compared with the comparison of the standard: every comparison with
    a NaN is false. *)

Module PyFloat.

Abbreviation float := spec_float.

Definition prec : Z := 53.
Definition emax : Z := 1024.

(** [x >= y] and [x < y] of Python. *)
Definition ge (x y : float) : bool := SFleb y x.
Definition lt (x y : float) : bool := SFltb x y.

(** The binary64 number a finite mantissa and exponent stand for is
    [m * 2^e]; [scaled100 m e] is that number times one hundred as a
    fraction [(numerator, denominator)]. *)
Definition scaled100 (m : positive) (e : Z) : Z * Z :=
  match e with
  | Zneg p => (100 * Zpos m, Z.pow_pos 2 p)
  | _ => (100 * Zpos m * 2 ^ e, 1)
  end.

(** Round a non-negative fraction to the nearest integer, a tie going to
    the even neighbour: the rounding of [format] and of the [%f] family,
    which is applied to the exact binary value. *)
Definition round_half_even (num den : Z) : Z :=
  let q := num / den in
  let r := num mod den in
  match Z.compare (2 * r) den with
  | Lt => q
  | Gt => q + 1
  | Eq => if Z.even q then q else q + 1
  end.

Definition digit (d : Z) : string :=
  String (ascii_of_N (48 + Z.to_N d)) EmptyString.

Definition decimal (n : Z) : string :=
  NilZero.string_of_uint (N.to_uint (Z.to_N n)).

(** The digits of a count of hundredths: integer part, point, two
    decimals. *)
Definition fixed2 (h : Z) : string :=
  decimal (h / 100) +:+ "." +:+ digit (h mod 100 / 10) +:+ digit (h mod 10).

Definition sign_prefix (s : bool) : string := if s then "-" else "".

(** [f"{x:.2f}"]. *)
Definition format_2f (x : float) : string :=
  match x with
  | S754_nan => "nan"
  | S754_infinity s => sign_prefix s +:+ "inf"
  | S754_zero s => sign_prefix s +:+ "0.00"
  | S754_finite s m e =>
      let '(num, den) := scaled100 m e in
      sign_prefix s +:+ fixed2 (round_half_even num den)
  end.

(** Literals of the source, as the binary64 numbers the Python parser
    reads them as. *)
Definition lit_0_60 : float := S754_finite false 5404319552844595 (-53).
Definition lit_0_7 : float := S754_finite false 6305039478318694 (-53).
Definition lit_0_25 : float := S754_finite false 4503599627370496 (-54).

End PyFloat.

Import PyFloat.

(** ** Frames

    A frame is the BGR pixel buffer [cv2] works on: rows of pixels, three
    bytes a pixel. *)

Definition Pixel : Type := Byte.byte * Byte.byte * Byte.byte.
Definition Image : Type := list (list Pixel).

(** [cv2.flip(src, flipCode)]: [0] flips around the x-axis, a positive code
    around the y-axis, a negative code around both. *)
Definition flip (src : Image) (flipCode : Z) : Image :=
  match flipCode with
  | Z0 => rev src
  | Zpos _ => map (@rev Pixel) src
  | Zneg _ => rev (map (@rev Pixel) src)
  end.

Definition Point : Type := Z * Z.
Definition Scalar : Type := Z * Z * Z.

Variant HersheyFont := FONT_HERSHEY_SIMPLEX.

(** What [cv2.rectangle] and [cv2.putText] were asked to paint.  The
    rasterisation itself belongs to OpenCV; an annotated frame is kept as the
    pixel buffer under the ordered list of the shapes painted over it.  So
    [pixels] is what the frame held before any paint, not what is seen:
    where a shape lies, the picture shows the shape, and [pixels] alone
    tells the picture only of a frame whose [painted] is empty. *)
Variant Drawing :=
  | Rectangle (pt1 pt2 : Point) (color : Scalar) (thickness : Z)
  | Text (text : string) (org : Point) (fontFace : HersheyFont)
         (fontScale : float) (color : Scalar) (thickness : Z).

Record Frame := mkFrame { pixels : Image; painted : list Drawing }.

Definition rectangle (img : Frame) (pt1 pt2 : Point) (color : Scalar)
    (thickness : Z) : Frame :=
  mkFrame (pixels img) (painted img ++ [Rectangle pt1 pt2 color thickness]).

Definition putText (img : Frame) (text : string) (org : Point)
    (fontFace : HersheyFont) (fontScale : float) (color : Scalar)
    (thickness : Z) : Frame :=
  mkFrame (pixels img)
          (painted img ++ [Text text org fontFace fontScale color thickness]).

Definition swap_channels {A : Type} (c : A * A * A) : A * A * A :=
  let '(b, g, r) := c in (r, g, b).

Definition recolor (d : Drawing) : Drawing :=
  match d with
  | Rectangle p q c t => Rectangle p q (swap_channels c) t
  | Text s o f k c t => Text s o f k (swap_channels c) t
  end.

(** [cv2.cvtColor(frame, cv2.COLOR_BGR2RGB)]: every pixel, painted ones
    included, has its first and third channel exchanged. *)
Definition cvtColor_BGR2RGB (img : Frame) : Frame :=
  mkFrame (map (map swap_channels) (pixels img)) (map recolor (painted img)).

(** ** The detection model

    [ultralytics] hands back one [Boxes] entry per detection.  The loop reads
    three things off an entry, [int(box.cls)], [float(box.conf)] and
    [map(int, box.xyxy[0])]; a [Box] holds those three values (the tensors of
    a prediction hold finite numbers, on which the conversions are total). *)

Record Box := mkBox {
  cls : Z;
  conf : float;
  xyxy : Z * Z * Z * Z
}.

(** [model.predict(frame, conf=t)[0].boxes] and the dictionary
    [model.names]. *)
Record YOLO := mkYOLO {
  predict : Image -> float -> list Box;
  names : gmap Z string
}.

(** ** The controller object and its environment *)

(** A [cv2.VideoCapture] object: which allocation it is, and whether it
    holds the device open. *)
Record VideoCapture := mkCapture { handle : nat; isOpened : bool }.

(** Calls that leave the controller, in the order they are made. *)
Variant Effect :=
  | CameraOpen (h : nat) (opened : bool)
  | CameraRead (h : nat)
  | CameraRelease (h : nat)
  | Predict (frame : Image) (threshold : float)
  | ButtonConfig (text : string)
  | ResultsDelete
  | ResultsInsert (chars : string)
  | LabelConfigure (image : Frame)
  | After (ms : Z).

Variant exn :=
  | Exception (msg : string)
  | KeyError (key : Z)
  | AttributeError (msg : string).

Record GUI := mkGUI {
  (* fields set by __init__ *)
  model : YOLO;
  conf_threshold : float;
  cap : option VideoCapture;
  is_running : bool;
  (* widgets *)
  start_button : string;
  confidence_slider : float;
  results_text : string;
  video_label : option Frame;
  (* Tk: update_frame callbacks waiting in the timer queue *)
  after_queue : nat;
  (* the camera device: the capture objects that hold it open *)
  device_holders : list nat;
  next_handle : nat;
  (* everything done so far, latest last *)
  effects : list Effect
}.

(** Field updates, one setter a field. *)
Definition set_cap (c : option VideoCapture) (g : GUI) : GUI :=
  mkGUI (model g) (conf_threshold g) c (is_running g) (start_button g)
        (confidence_slider g) (results_text g) (video_label g)
        (after_queue g) (device_holders g) (next_handle g) (effects g).

Definition set_is_running (b : bool) (g : GUI) : GUI :=
  mkGUI (model g) (conf_threshold g) (cap g) b (start_button g)
        (confidence_slider g) (results_text g) (video_label g)
        (after_queue g) (device_holders g) (next_handle g) (effects g).

Definition set_start_button (s : string) (g : GUI) : GUI :=
  mkGUI (model g) (conf_threshold g) (cap g) (is_running g) s
        (confidence_slider g) (results_text g) (video_label g)
        (after_queue g) (device_holders g) (next_handle g) (effects g).

Definition set_confidence_slider (v : float) (g : GUI) : GUI :=
  mkGUI (model g) (conf_threshold g) (cap g) (is_running g) (start_button g)
        v (results_text g) (video_label g)
        (after_queue g) (device_holders g) (next_handle g) (effects g).

Definition set_results_text (s : string) (g : GUI) : GUI :=
  mkGUI (model g) (conf_threshold g) (cap g) (is_running g) (start_button g)
        (confidence_slider g) s (video_label g)
        (after_queue g) (device_holders g) (next_handle g) (effects g).

Definition set_video_label (i : option Frame) (g : GUI) : GUI :=
  mkGUI (model g) (conf_threshold g) (cap g) (is_running g) (start_button g)
        (confidence_slider g) (results_text g) i
        (after_queue g) (device_holders g) (next_handle g) (effects g).

Definition set_after_queue (n : nat) (g : GUI) : GUI :=
  mkGUI (model g) (conf_threshold g) (cap g) (is_running g) (start_button g)
        (confidence_slider g) (results_text g) (video_label g)
        n (device_holders g) (next_handle g) (effects g).

Definition set_device (holders : list nat) (next : nat) (g : GUI) : GUI :=
  mkGUI (model g) (conf_threshold g) (cap g) (is_running g) (start_button g)
        (confidence_slider g) (results_text g) (video_label g)
        (after_queue g) holders next (effects g).

Definition set_effects (l : list Effect) (g : GUI) : GUI :=
  mkGUI (model g) (conf_threshold g) (cap g) (is_running g) (start_button g)
        (confidence_slider g) (results_text g) (video_label g)
        (after_queue g) (device_holders g) (next_handle g) l.

(** ** Python statements: state and exceptions

    A method runs on the controller and either returns or raises; what it
    wrote to the object before raising stays written. *)

Variant outcome (A : Type) :=
  | Returned (a : A)
  | Raised (e : exn).
Arguments Returned {A} a.
Arguments Raised {A} e.

Definition Py (A : Type) : Type := GUI -> outcome A * GUI.

Definition ret {A : Type} (a : A) : Py A := fun g => (Returned a, g).

Definition raise {A : Type} (e : exn) : Py A := fun g => (Raised e, g).

Definition bind {A B : Type} (m : Py A) (k : A -> Py B) : Py B :=
  fun g =>
    match m g with
    | (Returned a, g') => k a g'
    | (Raised e, g') => (Raised e, g')
    end.

Definition read {A : Type} (field : GUI -> A) : Py A :=
  fun g => (Returned (field g), g).

Definition write (upd : GUI -> GUI) : Py unit :=
  fun g => (Returned tt, upd g).

Definition emit (e : Effect) : Py unit :=
  write (fun g => set_effects (effects g ++ [e]) g).

Definition lift {A : Type} (o : outcome A) : Py A := fun g => (o, g).

Declare Scope py_scope.
Delimit Scope py_scope with py.
Notation "x <- m ; k" := (bind m (fun x => k))
  (at level 20, m at level 100, k at level 200, only parsing) : py_scope.
Notation "m ;; k" := (bind m (fun _ => k))
  (at level 100, k at level 200, only parsing, right associativity) : py_scope.

(** [for x in xs: body x]. *)
Fixpoint for_each {A : Type} (xs : list A) (body : A -> Py unit) : Py unit :=
  match xs with
  | [] => ret tt
  | x :: rest => bind (body x) (fun _ => for_each rest body)
  end.

Local Open Scope py_scope.

(** ** The camera: [cv2.VideoCapture]

    Whether the device can be opened, and what a read grabs, is decided
    outside the program; both come in as arguments. *)

(** [cv2.VideoCapture(0)]: a new capture object; it holds the device when the
    device could be opened. *)
Definition VideoCapture_0 (available : bool) : Py VideoCapture :=
  h <- read next_handle;
  holders <- read device_holders;
  write (set_device (if available then holders ++ [h] else holders) (S h));;
  emit (CameraOpen h available);;
  ret (mkCapture h available).

(** [v.release()]: the object lets go of the device; nothing to do when it
    did not hold it. *)
Definition VideoCapture_release (v : VideoCapture) : Py unit :=
  holders <- read device_holders;
  next <- read next_handle;
  write (set_device (List.filter (fun h => negb (Nat.eqb h (handle v))) holders)
                    next);;
  emit (CameraRelease (handle v)).

(** [v.read()]: [(True, frame)] when the object holds the device and the
    device delivers, [(False, None)] otherwise. *)
Definition VideoCapture_read (v : VideoCapture) (grabbed : option Image)
    : Py (option Image) :=
  emit (CameraRead (handle v));;
  ret (if isOpened v then grabbed else None).

(** ** Widgets *)

Definition newline : string := String (ascii_of_nat 10) EmptyString.

(** [start_button.config(text=s)] *)
Definition start_button_config (s : string) : Py unit :=
  emit (ButtonConfig s);; write (set_start_button s).

(** [results_text.delete(1.0, tk.END)] *)
Definition results_text_delete : Py unit :=
  emit ResultsDelete;; write (set_results_text "").

(** [results_text.insert(tk.END, s)] *)
Definition results_text_insert (s : string) : Py unit :=
  emit (ResultsInsert s);;
  old <- read results_text;
  write (set_results_text (old +:+ s)).

(** [video_label.configure(image=i)] *)
Definition video_label_configure (i : Frame) : Py unit :=
  emit (LabelConfigure i);; write (set_video_label (Some i)).

(** [window.after(ms, self.update_frame)] *)
Definition window_after (ms : Z) : Py unit :=
  emit (After ms);;
  n <- read after_queue;
  write (set_after_queue (S n)).

(** ** [ASLDetectorGUI] *)

(** The body of [for box in result.boxes] in [update_frame], over the local
    variables [detected_letters] and [frame]. *)
Fixpoint process_detections (names : gmap Z string) (boxes : list Box)
    (detected_letters : list string) (frame : Frame)
    : outcome (list string * Frame) :=
  match boxes with
  | [] => Returned (detected_letters, frame)
  | box :: rest =>
      let class_id := cls box in
      let confidence := conf box in
      let '(x1, y1, x2, y2) := xyxy box in
      if ge confidence lit_0_60 then
        match names !! class_id with
        | None => Raised (KeyError class_id)
        | Some predicted_letter =>
            let detected_letters :=
              detected_letters ++
                ["Letter " +:+ predicted_letter +:+ ": "
                   +:+ format_2f confidence] in
            let frame := rectangle frame (x1, y1) (x2, y2) (0, 255, 0) 2 in
            let frame :=
              putText frame predicted_letter (x1, y1 - 10)
                      FONT_HERSHEY_SIMPLEX lit_0_7 (0, 255, 0) 2 in
            process_detections names rest detected_letters frame
        end
      else process_detections names rest detected_letters frame
  end.

(** [update_frame]: one tick.  [grabbed] is what the device delivers to the
    read of this tick, if it is asked. *)
Definition update_frame (grabbed : option Image) : Py unit :=
  running <- read is_running;
  if running : bool then
    c <- read cap;
    match c with
    | None => raise (AttributeError "'NoneType' object has no attribute 'read'")
    | Some v =>
        r <- VideoCapture_read v grabbed;
        match r with
        | Some frame =>
            let frame := flip frame 1 in
            t <- read confidence_slider;
            m <- read model;
            emit (Predict frame t);;
            let result := predict m frame t in
            out <- lift (process_detections (names m) result [] (mkFrame frame []));
            let '(detected_letters, frame) := out in
            results_text_delete;;
            for_each detected_letters
                     (fun letter => results_text_insert (letter +:+ newline));;
            let frame_rgb := cvtColor_BGR2RGB frame in
            video_label_configure frame_rgb
        | None => ret tt
        end;;
        window_after 10
    end
  else ret tt.

(** [initialize_camera]; [available] tells whether the device opens, should
    the method try it. *)
Definition initialize_camera (available : bool) : Py unit :=
  c <- read cap;
  match c with
  | None =>
      v <- VideoCapture_0 available;
      write (set_cap (Some v));;
      if negb (isOpened v) then raise (Exception "Could not open camera")
      else ret tt
  | Some _ => ret tt
  end.

(** [release_camera].  The attribute [cap] exists from [__init__] on, so
    the [hasattr] test of the source is true and the guard is the test for
    [None]. *)
Definition release_camera : Py unit :=
  c <- read cap;
  match c with
  | Some v => VideoCapture_release v;; write (set_cap None)
  | None => ret tt
  end.

(** The two branches of [toggle_detection], named after what the button
    says they do. *)
Definition stop_detection : Py unit :=
  write (set_is_running false);;
  start_button_config "Start Detection";;
  release_camera.

Definition start_detection (available : bool) (grabbed : option Image)
    : Py unit :=
  write (set_is_running true);;
  start_button_config "Stop Detection";;
  initialize_camera available;;
  update_frame grabbed.

(** [toggle_detection], the command of the button.  A start runs the first
    tick itself, hence the [grabbed] argument. *)
Definition toggle_detection (available : bool) (grabbed : option Image)
    : Py unit :=
  running <- read is_running;
  if running : bool then stop_detection
  else start_detection available grabbed.

(** [__del__] *)
Definition del : Py unit := release_camera.

(** [ASLDetectorGUI(window, model_path, conf_threshold)] once [__init__] and
    [setup_gui] are through: nothing runs, nothing is scheduled, the device
    is free. *)
Definition init (m : YOLO) (threshold : float) : GUI :=
  {| model := m; conf_threshold := threshold; cap := None;
     is_running := false;
     start_button := "Start Detection"; confidence_slider := threshold;
     results_text := ""; video_label := None;
     after_queue := 0%nat; device_holders := []; next_handle := 0%nat;
     effects := [] |}.

(** [main]: the controller with the default threshold. *)
Definition main (m : YOLO) : GUI := init m lit_0_25.

(** ** The Tk main loop

    One thread runs every callback to its end before the next one starts: a
    click on the button, a timer that has become due, a move of the slider.
    An exception that leaves a callback is reported by Tk and the loop goes
    on with the object as the callback left it. *)

Variant TkEvent :=
  | ButtonClick (available : bool) (grabbed : option Image)
  | TimerDue (grabbed : option Image)
  | SliderSet (v : float).

Definition mainloop_step (g : GUI) (ev : TkEvent) : GUI :=
  match ev with
  | ButtonClick available grabbed => snd (toggle_detection available grabbed g)
  | TimerDue grabbed =>
      match after_queue g with
      | O => g
      | S n => snd (update_frame grabbed (set_after_queue n g))
      end
  | SliderSet v => set_confidence_slider v g
  end.

Definition mainloop (evs : list TkEvent) (g : GUI) : GUI :=
  fold_left mainloop_step evs g.

Definition reachable (m : YOLO) (g : GUI) : Prop :=
  exists evs, g = mainloop evs (main m).

(** ** The loop as its specification words it

    The display filter, the line of the results listing and the overlay of
    one detection, written the way the specification describes them; the
    theorems below compare [update_frame] with them. *)

Definition spec_survives (b : Box) : bool := ge (conf b) lit_0_60.

Definition spec_label (names : gmap Z string) (b : Box) : string :=
  names !!! cls b.

Definition spec_line (names : gmap Z string) (b : Box) : string :=
  "Letter " +:+ spec_label names b +:+ ": " +:+ format_2f (conf b).

Definition spec_overlay (names : gmap Z string) (b : Box) : list Drawing :=
  let '(x1, y1, x2, y2) := xyxy b in
  [Rectangle (x1, y1) (x2, y2) (0, 255, 0) 2;
   Text (spec_label names b) (x1, y1 - 10) FONT_HERSHEY_SIMPLEX lit_0_7
        (0, 255, 0) 2].

(** The text of a listing: its lines, each closed by a newline. *)
Definition listing_text (lines : list string) : string :=
  String.concat "" (map (fun l => l +:+ newline) lines).

(** The lines of a text, as the widget counts them: a newline closes a
    line, and what follows the last newline is a line when it is not
    empty. *)
Fixpoint lines_from (cur s : string) : list string :=
  match s with
  | EmptyString => match cur with EmptyString => [] | _ => [cur] end
  | String c s' =>
      if Ascii.eqb c (ascii_of_nat 10) then cur :: lines_from "" s'
      else lines_from (cur +:+ String c EmptyString) s'
  end.

Definition text_lines (s : string) : list string := lines_from "" s.

Fixpoint no_newline (s : string) : bool :=
  match s with
  | EmptyString => true
  | String c s' => negb (Ascii.eqb c (ascii_of_nat 10)) && no_newline s'
  end.

(** The first class id, in the order of detection, that the loop would look
    up and not find. *)
Definition first_unknown (names : gmap Z string) (boxes : list Box)
    : option Z :=
  cls <$> List.find
            (fun b => spec_survives b && bool_decide (names !! cls b = None))
            boxes.

(** The controller after a tick that read [frame] (already mirrored) through
    capture [v] and found [kept] worth showing. *)
Definition tick_effects (g : GUI) (v : VideoCapture) (frame : Image)
    (lines : list string) (shown : Frame) : list Effect :=
  effects g
    ++ [CameraRead (handle v); Predict frame (confidence_slider g);
        ResultsDelete]
    ++ map (fun l => ResultsInsert (l +:+ newline)) lines
    ++ [LabelConfigure shown; After 10].

Definition rendered (g : GUI) (v : VideoCapture) (frame : Image)
    (kept : list Box) : GUI :=
  let nm := names (model g) in
  let lines := map (spec_line nm) kept in
  let shown :=
    cvtColor_BGR2RGB (mkFrame frame (flat_map (spec_overlay nm) kept)) in
  mkGUI (model g) (conf_threshold g) (cap g) (is_running g) (start_button g)
        (confidence_slider g) (listing_text lines) (Some shown)
        (S (after_queue g)) (device_holders g) (next_handle g)
        (tick_effects g v frame lines shown).

(** The invariant of the controller: the device is held by the capture object
    in [cap] and by nothing else, an idle controller has let go of its
    capture object, and the button offers what the controller is not
    doing. *)
Record consistent (g : GUI) : Prop := {
  holders_cap :
    device_holders g =
      match cap g with
      | Some v => if isOpened v then [handle v] else []
      | None => []
      end;
  idle_released : is_running g = false -> cap g = None;
  running_holds : is_running g = true -> cap g <> None;
  button_says :
    start_button g =
      if is_running g then "Stop Detection" else "Start Detection"
}.

(** What a tick never touches: the session (running flag, capture object,
    threshold), the button, the model and the device. *)
Definition same_session (g g' : GUI) : Prop :=
  model g' = model g /\ conf_threshold g' = conf_threshold g /\
  cap g' = cap g /\ is_running g' = is_running g /\
  start_button g' = start_button g /\
  confidence_slider g' = confidence_slider g /\
  device_holders g' = device_holders g /\ next_handle g' = next_handle g.

(** The controller once [cv2.VideoCapture(0)] has been tried and its result
    stored in [cap]. *)
Definition acquired (available : bool) (g : GUI) : GUI :=
  let h := next_handle g in
  set_cap (Some (mkCapture h available))
    (set_effects (effects g ++ [CameraOpen h available])
       (set_device
          (if available then device_holders g ++ [h] else device_holders g)
          (S h) g)).

(** The controller once capture object [v] has been released and [cap]
    cleared. *)
Definition released (v : VideoCapture) (g : GUI) : GUI :=
  set_cap None
    (set_effects (effects g ++ [CameraRelease (handle v)])
       (set_device
          (List.filter (fun h => negb (Nat.eqb h (handle v)))
                       (device_holders g))
          (next_handle g) g)).

(** The controller once the flag and the button have been switched. *)
Definition switched (running : bool) (text : string) (g : GUI) : GUI :=
  set_start_button text
    (set_effects (effects g ++ [ButtonConfig text])
       (set_is_running running g)).

Definition is_click (ev : TkEvent) : bool :=
  match ev with ButtonClick _ _ => true | _ => false end.

Definition is_timer (ev : TkEvent) : bool :=
  match ev with TimerDue _ => true | _ => false end.

(** ** Concrete inputs *)

Module Demo.

Definition c_0_91 : float := S754_finite false 8196551321814303 (-53).
Definition c_0_55 : float := S754_finite false 4953959590107546 (-53).

Definition bbox1 : Z * Z * Z * Z := (10, 20, 110, 220).
Definition bbox2 : Z * Z * Z * Z := (300, 40, 380, 160).

Definition letters : gmap Z string := <[0 := "A"]> (<[1 := "B"]> ∅).

(** A model that sees an A at 0.91 and a B at 0.55 in every frame. *)
Definition model_AB : YOLO :=
  mkYOLO (fun _ _ => [mkBox 0 c_0_91 bbox1; mkBox 1 c_0_55 bbox2]) letters.

(** A model that reports class 7, which its table does not have. *)
Definition model_unknown : YOLO :=
  mkYOLO (fun _ _ => [mkBox 0 c_0_91 bbox1; mkBox 7 c_0_91 bbox2]) letters.

Definition px (b g r : Byte.byte) : Pixel := (b, g, r).

Definition img : Image :=
  [[px Byte.x00 Byte.x01 Byte.x02; px Byte.x03 Byte.x04 Byte.x05];
   [px Byte.x06 Byte.x07 Byte.x08; px Byte.x09 Byte.x0a Byte.x0b]].

(** The controller after a click on the button with the camera at hand. *)
Definition started : GUI :=
  mainloop [ButtonClick true (Some img)] (main model_AB).

Definition started_unknown : GUI :=
  mainloop [ButtonClick true None] (main model_unknown).

(** The controller after a click on the button with no camera to open. *)
Definition failed : GUI :=
  mainloop [ButtonClick false None] (main model_AB).

End Demo.

(** ** Two decimals, as a reader takes them

    What it means for a text to show a number "rounded to 2 decimal places",
    said without the formatter: how the text is read back, and which number
    of hundredths is the right one. *)

(** The digit a character stands for. *)
Definition digit_value (c : ascii) : option Z :=
  let n := Z.of_N (N_of_ascii c) in
  if (48 <=? n)%Z && (n <=? 57)%Z then Some (n - 48) else None.

(** Reading digits up to a point and exactly two digits after it, [acc]
    being the value of the digits read so far: the number of hundredths the
    text stands for. *)
Fixpoint read_hundredths_from (acc : Z) (s : string) : option Z :=
  match s with
  | EmptyString => None
  | String c s' =>
      if Ascii.eqb c "."%char then
        match s' with
        | String a (String b EmptyString) =>
            match digit_value a, digit_value b with
            | Some x, Some y => Some (100 * acc + 10 * x + y)
            | _, _ => None
            end
        | _ => None
        end
      else
        match digit_value c with
        | Some d => read_hundredths_from (10 * acc + d) s'
        | None => None
        end
  end.

(** A numeral with two decimals: at least one digit before the point, and
    no zero in front unless it is the only digit there. *)
Definition read_hundredths (s : string) : option Z :=
  match s with
  | EmptyString => None
  | String c s' =>
      if Ascii.eqb c "."%char then None
      else if Ascii.eqb c "0"%char then
        match s' with
        | String c' _ =>
            if Ascii.eqb c' "."%char then read_hundredths_from 0 s else None
        | EmptyString => None
        end
      else read_hundredths_from 0 s
  end.

(** [h] hundredths is the multiple of 0.01 nearest to [m * 2^e], and the
    even one when two are equally near.  With [100 * m * 2^e = num / den]:
    [|h - num/den| <= 1/2], and [h] is even when the distance is [1/2]. *)
Definition nearest_hundredth (m : positive) (e : Z) (h : Z) : Prop :=
  let num := 100 * Zpos m * 2 ^ Z.max e 0 in
  let den := 2 ^ Z.max (- e) 0 in
  2 * Z.abs (h * den - num) <= den
  /\ (2 * Z.abs (h * den - num) = den -> Z.even h = true).

(** The text a confidence that passed the display filter is to be shown as:
    a positive number reads back as its nearest hundredth; infinity is
    spelled out.  (Nothing else passes the filter.) *)
Definition two_decimals (c : float) (text : string) : Prop :=
  match c with
  | S754_finite false m e =>
      exists h, read_hundredths text = Some h /\ nearest_hundredth m e h
  | S754_infinity false => text = "inf"
  | _ => False
  end.

(** The value of a decimal numeral, most significant digit first, after the
    digits worth [acc]. *)
Fixpoint uint_value (acc : Z) (d : Decimal.uint) : Z :=
  match d with
  | Decimal.Nil => acc
  | Decimal.D0 d' => uint_value (10 * acc + 0) d'
  | Decimal.D1 d' => uint_value (10 * acc + 1) d'
  | Decimal.D2 d' => uint_value (10 * acc + 2) d'
  | Decimal.D3 d' => uint_value (10 * acc + 3) d'
  | Decimal.D4 d' => uint_value (10 * acc + 4) d'
  | Decimal.D5 d' => uint_value (10 * acc + 5) d'
  | Decimal.D6 d' => uint_value (10 * acc + 6) d'
  | Decimal.D7 d' => uint_value (10 * acc + 7) d'
  | Decimal.D8 d' => uint_value (10 * acc + 8) d'
  | Decimal.D9 d' => uint_value (10 * acc + 9) d'
  end.

(** ** The button and its colours *)

(** [MinimalStyle] *)
Module MinimalStyle.

Definition BG_COLOR : string := "#ffffff".
Definition ACCENT_COLOR : string := "#2D3436".
Definition HIGHLIGHT_COLOR : string := "#0984E3".
Definition TEXT_COLOR : string := "#2D3436".
Definition BORDER_COLOR : string := "#DFE6E9".

End MinimalStyle.

(** [ModernButton]: a [tk.Button] with the options its constructor fixes and
    the text it is given ([font] and [command], the other two keywords the
    window passes, bear on neither the colours nor the text). *)
Module ModernButton.

Record t := mk {
  bg : string;
  fg : string;
  activebackground : string;
  activeforeground : string;
  relief : string;
  borderwidth : Z;
  padx : Z;
  pady : Z;
  cursor : string;
  text : string
}.

(** [ModernButton(master, text=s, ...)] *)
Definition init (s : string) : t :=
  {| bg := MinimalStyle.BG_COLOR;
     fg := MinimalStyle.TEXT_COLOR;
     activebackground := MinimalStyle.HIGHLIGHT_COLOR;
     activeforeground := MinimalStyle.BG_COLOR;
     relief := "flat"; borderwidth := 0; padx := 20; pady := 10;
     cursor := "hand2"; text := s |}.

(** [self.config(bg=b, fg=f)] *)
Definition config_colors (b f : string) (w : t) : t :=
  mk b f (activebackground w) (activeforeground w) (relief w)
     (borderwidth w) (padx w) (pady w) (cursor w) (text w).

(** [self.config(text=s)] *)
Definition config_text (s : string) (w : t) : t :=
  mk (bg w) (fg w) (activebackground w) (activeforeground w) (relief w)
     (borderwidth w) (padx w) (pady w) (cursor w) s.

Definition on_enter (w : t) : t :=
  config_colors MinimalStyle.HIGHLIGHT_COLOR MinimalStyle.BG_COLOR w.

Definition on_leave (w : t) : t :=
  config_colors MinimalStyle.BG_COLOR MinimalStyle.TEXT_COLOR w.

(** What reaches the button: the pointer comes ([<Enter>]), the pointer goes
    ([<Leave>]), the controller changes the text. *)
Variant event :=
  | Enter
  | Leave
  | SetText (s : string).

Definition deliver (w : t) (e : event) : t :=
  match e with
  | Enter => on_enter w
  | Leave => on_leave w
  | SetText s => config_text s w
  end.

Definition run (es : list event) (w : t) : t := fold_left deliver es w.

(** Whether the pointer is on the button after the events. *)
Fixpoint hovered (es : list event) (before : bool) : bool :=
  match es with
  | [] => before
  | Enter :: es' => hovered es' true
  | Leave :: es' => hovered es' false
  | SetText _ :: es' => hovered es' before
  end.

(** The text the button was last given. *)
Fixpoint last_text (es : list event) (before : string) : string :=
  match es with
  | [] => before
  | SetText s :: es' => last_text es' s
  | _ :: es' => last_text es' before
  end.

End ModernButton.

(** ** The camera as the trace shows it *)

(** The capture object in use after a trace of effects, starting with
    [current]; [None] when the trace does what a camera forbids: a capture
    object made while another one is in use, a read or a release through a
    capture object that is not the one in use. *)
Fixpoint camera_protocol (current : option nat) (l : list Effect)
    : option (option nat) :=
  match l with
  | [] => Some current
  | CameraOpen h _ :: l' =>
      match current with
      | None => camera_protocol (Some h) l'
      | Some _ => None
      end
  | CameraRead h :: l' =>
      match current with
      | Some h' => if Nat.eqb h h' then camera_protocol current l' else None
      | None => None
      end
  | CameraRelease h :: l' =>
      match current with
      | Some h' => if Nat.eqb h h' then camera_protocol None l' else None
      | None => None
      end
  | _ :: l' => camera_protocol current l'
  end.

(** The table of the model has a label for every detection the model can
    return above the display cutoff. *)
Definition labels_cover (m : YOLO) : Prop :=
  forall frame t b,
    In b (predict m frame t) -> ge (conf b) lit_0_60 = true ->
    is_Some (names m !! cls b).

(** [1.0] *)
Definition lit_1_0 : float := S754_finite false 4503599627370496 (-52).

(** The pixel in row [i], column [j]. *)
Definition pixel_at (img : Image) (i j : nat) : option Pixel :=
  match nth_error img i with
  | Some row => nth_error row j
  | None => None
  end.

(** ** More concrete inputs *)

Module Demo2.

(** A model that sees an A at 0.91 and nothing else. *)
Definition model_A : YOLO :=
  mkYOLO (fun _ _ => [mkBox 0 Demo.c_0_91 Demo.bbox1]) Demo.letters.

(** A model that sees, faintly, something its table has no name for. *)
Definition model_faint : YOLO :=
  mkYOLO (fun _ _ => [mkBox 7 Demo.c_0_55 Demo.bbox2]) Demo.letters.

(** A model that sees an A at 0.91 and a B at 0.55 and returns those at or
    above the threshold it is given. *)
Definition model_honest : YOLO :=
  mkYOLO (fun _ t =>
            List.filter (fun b => ge (conf b) t)
              [mkBox 0 Demo.c_0_91 Demo.bbox1; mkBox 1 Demo.c_0_55 Demo.bbox2])
         Demo.letters.

Definition started_A : GUI :=
  mainloop [ButtonClick true (Some Demo.img)] (main model_A).

Definition started_honest : GUI :=
  mainloop [ButtonClick true (Some Demo.img)] (main model_honest).

Definition started_faint : GUI :=
  mainloop [ButtonClick true (Some Demo.img)] (main model_faint).

End Demo2.

(** * Properties *)

(** ** Floats *)

Section Comparison.

Lemma SFcompare_antisym (x y : float) :
  SFcompare y x = CompOpp <$> SFcompare x y.
Proof.
  destruct x as [s|s| |s m e], y as [s'|s'| |s' m' e']; simpl;
    try reflexivity;
    try (destruct s; reflexivity);
    try (destruct s'; reflexivity);
    try (destruct s, s'; reflexivity).
  destruct s, s'; simpl; try reflexivity;
    rewrite (Z.compare_antisym e' e);
    destruct (e' ?= e)%Z; simpl; try reflexivity;
    rewrite ?(Pos.compare_cont_antisym m m' Eq); reflexivity.
Qed.

(** [x < y] excludes [x >= y]. *)
Lemma lt_not_ge (x y : float) : lt x y = true -> ge x y = false.
Proof.
  unfold lt, ge, SFltb, SFleb. rewrite (SFcompare_antisym x y).
  destruct (SFcompare x y) as [[]|]; simpl; congruence.
Qed.

(** Neither [nan >= y] nor [nan < y]. *)
Lemma nan_unordered (y : float) :
  ge S754_nan y = false /\ lt S754_nan y = false.
Proof. destruct y; split; reflexivity. Qed.

Lemma SFcompare_refl (x : float) : x <> S754_nan -> SFcompare x x = Some Eq.
Proof.
  destruct x as [s|s| |s m e]; simpl; intros Hx; try congruence.
  - destruct s; reflexivity.
  - destruct s; rewrite Z.compare_refl; simpl;
      change (Pos.compare_cont Eq m m) with (m ?= m)%positive;
      rewrite Pos.compare_refl; reflexivity.
Qed.

Lemma ge_refl (x : float) : x <> S754_nan -> ge x x = true.
Proof. intros Hx. unfold ge, SFleb. rewrite SFcompare_refl; auto. Qed.

(** The literal [0.60] is a number of the binary64 format, and no other
    one is closer to three fifths: twice the distance, in units of
    [2^-53 / 5], is at most the gap between two neighbours. *)
Lemma lit_0_60_valid : valid_binary prec emax lit_0_60 = true.
Proof. reflexivity. Qed.

Lemma lit_0_60_nearest :
  match lit_0_60 with
  | S754_finite false m e =>
      e = (-53)%Z /\ (2 * Z.abs (5 * Zpos m - 3 * 2 ^ 53) <= 5)%Z
  | _ => False
  end.
Proof. simpl. split; [reflexivity | vm_compute; discriminate]. Qed.

End Comparison.

(** The cutoff at work: 0.91 passes, 0.55 does not, the binary64 number
    just below the literal does not, and the binary32 number nearest to 0.6,
    which is how a confidence tensor holds it, passes. *)
Example ge_cutoff_samples :
  ge Demo.c_0_91 lit_0_60 = true
  /\ ge Demo.c_0_55 lit_0_60 = false
  /\ ge (S754_finite false 5404319552844594 (-53)) lit_0_60 = false
  /\ ge (S754_finite false 5404319767592960 (-53)) lit_0_60 = true
  /\ ge (S754_infinity false) lit_0_60 = true.
Proof. repeat split. Qed.

(** ** Formatting *)

Example format_2f_0_91 : format_2f Demo.c_0_91 = "0.91".
Proof. reflexivity. Qed.

Example format_2f_0_55 : format_2f Demo.c_0_55 = "0.55".
Proof. reflexivity. Qed.

(** A tie goes to the even hundredth: [0.125] prints as [0.12]. *)
Example format_2f_tie :
  format_2f (S754_finite false 4503599627370496 (-55)) = "0.12".
Proof. reflexivity. Qed.

Example format_2f_one :
  format_2f (S754_finite false 4503599627370496 (-52)) = "1.00".
Proof. reflexivity. Qed.

(** ** Mirroring *)

Lemma map_rev_involutive {A : Type} (rows : list (list A)) :
  map (@rev A) (map (@rev A) rows) = rows.
Proof.
  induction rows as [|row rows IH]; simpl.
  - reflexivity.
  - rewrite rev_involutive, IH. reflexivity.
Qed.

Lemma flip_preserves_height (img : Image) (code : Z) :
  length (flip img code) = length img.
Proof.
  destruct code; simpl;
    rewrite ?length_rev, ?length_map; reflexivity.
Qed.

(** C6: the mirroring of a tick, [cv2.flip(frame, 1)], applied twice gives
    back the frame it started from, pixel for pixel. *)
Theorem mirror_twice_id (frame : Image) : flip (flip frame 1) 1 = frame.
Proof. simpl. apply map_rev_involutive. Qed.

(** ** The loop over the detections *)

Lemma append_cons (c : ascii) (s t : string) :
  String c s +:+ t = String c (s +:+ t).
Proof. reflexivity. Qed.

Lemma append_assoc (s1 s2 s3 : string) :
  (s1 +:+ s2) +:+ s3 = s1 +:+ (s2 +:+ s3).
Proof.
  induction s1 as [|c s1 IH]; [reflexivity|].
  rewrite !append_cons, IH. reflexivity.
Qed.

Lemma append_nil_r (s : string) : s +:+ "" = s.
Proof.
  induction s as [|c s IH]; [reflexivity|].
  rewrite append_cons, IH. reflexivity.
Qed.

Lemma concat_empty_cons (s : string) (l : list string) :
  String.concat "" (s :: l) = s +:+ String.concat "" l.
Proof.
  destruct l as [|s' l]; simpl; [now rewrite append_nil_r | reflexivity].
Qed.

Lemma listing_text_cons (l : string) (lines : list string) :
  listing_text (l :: lines) = (l +:+ newline) +:+ listing_text lines.
Proof. unfold listing_text. rewrite map_cons. apply concat_empty_cons. Qed.

Lemma first_unknown_cons (names : gmap Z string) (b : Box)
    (boxes : list Box) :
  first_unknown names (b :: boxes) =
    if spec_survives b then
      match names !! cls b with
      | None => Some (cls b)
      | Some _ => first_unknown names boxes
      end
    else first_unknown names boxes.
Proof.
  unfold first_unknown. simpl.
  destruct (spec_survives b); simpl; [|reflexivity].
  destruct (names !! cls b) eqn:E; reflexivity.
Qed.

(** The loop raises at the first surviving detection whose class id the
    table lacks; when there is none it appends, in order, the line and the
    overlay of every surviving detection. *)
Lemma process_detections_spec (names : gmap Z string) (boxes : list Box) :
  forall (acc : list string) (fr : Frame),
    process_detections names boxes acc fr =
      match first_unknown names boxes with
      | Some k => Raised (KeyError k)
      | None =>
          let kept := List.filter spec_survives boxes in
          Returned
            (acc ++ map (spec_line names) kept,
             mkFrame (pixels fr)
                     (painted fr ++ flat_map (spec_overlay names) kept))
      end.
Proof.
  induction boxes as [|b boxes IH]; intros acc fr.
  - simpl. rewrite !app_nil_r. destruct fr; reflexivity.
  - rewrite first_unknown_cons. simpl.
    destruct b as [k c [[[x1 y1] x2] y2]]. unfold spec_survives. simpl.
    destruct (ge c lit_0_60) eqn:Hc; [|apply IH].
    destruct (names !! k) as [l|] eqn:Hk; [|reflexivity].
    rewrite IH. destruct (first_unknown names boxes); [reflexivity|].
    simpl. unfold spec_line, spec_overlay, spec_label. simpl.
    rewrite (lookup_total_correct _ _ _ Hk).
    rewrite <- !app_assoc. reflexivity.
Qed.

Lemma first_unknown_None (names : gmap Z string) (boxes : list Box) :
  first_unknown names boxes = None <->
  (forall b, In b boxes -> spec_survives b = true ->
             is_Some (names !! cls b)).
Proof.
  induction boxes as [|b boxes IH].
  - split; [intros _ b [] | reflexivity].
  - rewrite first_unknown_cons. split.
    + intros H b' [<-|Hin] Hs.
      * rewrite Hs in H. destruct (names !! cls b); [eauto | discriminate].
      * apply IH; auto.
        destruct (spec_survives b); [|exact H].
        destruct (names !! cls b); [exact H | discriminate].
    + intros H. assert (Hrest : first_unknown names boxes = None).
      { apply IH. intros b' Hin. apply H. now right. }
      destruct (spec_survives b) eqn:Hs; [|exact Hrest].
      destruct (H b (or_introl eq_refl) Hs) as [l ->]. exact Hrest.
Qed.

Lemma first_unknown_Some (names : gmap Z string) (boxes : list Box) (k : Z) :
  first_unknown names boxes = Some k ->
  exists b, In b boxes /\ cls b = k /\ spec_survives b = true
            /\ names !! k = None.
Proof.
  induction boxes as [|b boxes IH]; [discriminate|].
  rewrite first_unknown_cons.
  destruct (spec_survives b) eqn:Hs.
  - destruct (names !! cls b) eqn:Hk.
    + intros H. destruct (IH H) as (b' & ? & ?). exists b'. split; [now right | auto].
    + intros [= <-]. exists b. split; [now left | auto].
  - intros H. destruct (IH H) as (b' & ? & ?). exists b'. split; [now right | auto].
Qed.

(** ** Running a method *)

(** Unfold the statements of a method and the setters they use, down to the
    fields of the controller. *)
Ltac py_unfold :=
  cbv beta iota zeta delta
    [bind read write emit ret raise lift
     VideoCapture_0 VideoCapture_release VideoCapture_read
     start_button_config results_text_delete results_text_insert
     video_label_configure window_after
     initialize_camera release_camera stop_detection start_detection
     toggle_detection del
     set_cap set_is_running set_start_button set_confidence_slider
     set_results_text set_video_label set_after_queue set_device set_effects
     model conf_threshold cap is_running start_button confidence_slider
     results_text video_label after_queue device_holders next_handle
     effects].

Ltac py_run := py_unfold; simpl.

Lemma for_each_insert (lines : list string) :
  forall g,
    for_each lines (fun l => results_text_insert (l +:+ newline)) g =
      (Returned tt,
       set_results_text (results_text g +:+ listing_text lines)
         (set_effects
            (effects g ++ map (fun l => ResultsInsert (l +:+ newline)) lines)
            g)).
Proof.
  induction lines as [|l lines IH]; intros g.
  - destruct g. py_run. rewrite append_nil_r, app_nil_r. reflexivity.
  - simpl. unfold bind at 1.
    replace (results_text_insert (l +:+ newline) g)
      with (Returned tt,
            set_results_text (results_text g +:+ (l +:+ newline))
              (set_effects (effects g ++ [ResultsInsert (l +:+ newline)]) g))
      by (destruct g; reflexivity).
    rewrite IH. rewrite listing_text_cons. destruct g. py_run.
    rewrite append_assoc, <- app_assoc. reflexivity.
Qed.

(** A tick that finds the controller idle does nothing at all. *)
Lemma update_frame_idle (g : GUI) (grabbed : option Image) :
  is_running g = false -> update_frame grabbed g = (Returned tt, g).
Proof.
  intros H. unfold update_frame, bind at 1, read at 1. rewrite H. reflexivity.
Qed.

(** A tick whose read brings no frame queues the next tick and leaves the
    rest alone. *)
Lemma update_frame_no_frame (g : GUI) (v : VideoCapture)
    (grabbed : option Image) :
  is_running g = true -> cap g = Some v ->
  (if isOpened v then grabbed else None) = None ->
  update_frame grabbed g =
    (Returned tt,
     set_after_queue (S (after_queue g))
       (set_effects (effects g ++ [CameraRead (handle v); After 10]) g)).
Proof.
  intros Hrun Hcap Hread. unfold update_frame.
  destruct g. simpl in Hrun, Hcap. subst. py_run. rewrite Hread.
  rewrite <- app_assoc. reflexivity.
Qed.

(** A tick that reads a frame through an open capture object: it raises at
    the first class id the table lacks, before anything is shown or queued;
    otherwise it shows the surviving detections and queues the next tick. *)
Lemma update_frame_frame (g : GUI) (v : VideoCapture) (img : Image) :
  is_running g = true -> cap g = Some v -> isOpened v = true ->
  let frame := flip img 1 in
  let boxes := predict (model g) frame (confidence_slider g) in
  update_frame (Some img) g =
    match first_unknown (names (model g)) boxes with
    | Some k =>
        (Raised (KeyError k),
         set_effects
           (effects g
              ++ [CameraRead (handle v); Predict frame (confidence_slider g)])
           g)
    | None =>
        (Returned tt, rendered g v frame (List.filter spec_survives boxes))
    end.
Proof.
  intros Hrun Hcap Hopen frame boxes. unfold update_frame.
  unfold bind at 1, read at 1. rewrite Hrun.
  unfold bind at 1, read at 1. rewrite Hcap.
  unfold bind at 1. unfold bind at 1.
  unfold VideoCapture_read, bind at 1, emit, write, ret. rewrite Hopen.
  unfold bind at 1, read at 1. unfold bind at 1, read at 1.
  unfold bind at 1. unfold bind at 1.
  replace (confidence_slider (set_effects (effects g ++ [CameraRead (handle v)]) g))
    with (confidence_slider g) by (destruct g; reflexivity).
  replace (model (set_effects (effects g ++ [CameraRead (handle v)]) g))
    with (model g) by (destruct g; reflexivity).
  fold frame. fold boxes.
  unfold bind at 1, lift. rewrite process_detections_spec.
  destruct (first_unknown (names (model g)) boxes) as [k|].
  - destruct g; py_run. rewrite <- app_assoc. reflexivity.
  - cbv zeta. simpl app.
    unfold results_text_delete, video_label_configure, window_after.
    unfold bind at 1. unfold bind at 1. unfold emit at 1, write at 1.
    unfold bind at 1. unfold write at 1.
    unfold bind at 1. unfold bind at 1.
    rewrite for_each_insert.
    destruct g. unfold rendered, tick_effects. py_unfold.
    rewrite map_map, <- !app_assoc. reflexivity.
Qed.

Lemma same_session_refl (g : GUI) : same_session g g.
Proof. repeat split. Qed.

Lemma update_frame_same_session (g : GUI) (grabbed : option Image) :
  same_session g (snd (update_frame grabbed g)).
Proof.
  destruct (is_running g) eqn:Hrun.
  2:{ rewrite update_frame_idle by assumption. apply same_session_refl. }
  destruct (cap g) as [v|] eqn:Hcap.
  2:{ unfold update_frame, bind at 1, read at 1. rewrite Hrun.
      unfold bind at 1, read at 1. rewrite Hcap. apply same_session_refl. }
  destruct (if isOpened v then grabbed else None) as [img|] eqn:Hread.
  - destruct (isOpened v) eqn:Hopen; [subst grabbed | discriminate].
    rewrite (update_frame_frame g v img Hrun Hcap Hopen).
    destruct (first_unknown _ _); destruct g; repeat split.
  - rewrite (update_frame_no_frame g v grabbed Hrun Hcap Hread).
    destruct g; repeat split.
Qed.

(** ** Acquiring and releasing the camera *)

Lemma initialize_camera_held (g : GUI) (v : VideoCapture) (available : bool) :
  cap g = Some v -> initialize_camera available g = (Returned tt, g).
Proof.
  intros H. unfold initialize_camera, bind at 1, read at 1. rewrite H.
  reflexivity.
Qed.

Lemma initialize_camera_free (g : GUI) (available : bool) :
  cap g = None ->
  initialize_camera available g =
    (if available then Returned tt
     else Raised (Exception "Could not open camera"),
     acquired available g).
Proof.
  intros H. unfold initialize_camera, bind at 1, read at 1. rewrite H.
  destruct g, available; reflexivity.
Qed.

Lemma release_camera_free (g : GUI) :
  cap g = None -> release_camera g = (Returned tt, g).
Proof.
  intros H. unfold release_camera, bind at 1, read at 1. rewrite H.
  reflexivity.
Qed.

Lemma release_camera_held (g : GUI) (v : VideoCapture) :
  cap g = Some v -> release_camera g = (Returned tt, released v g).
Proof.
  intros H. unfold release_camera, bind at 1, read at 1. rewrite H.
  destruct g; reflexivity.
Qed.

Lemma stop_detection_unfold (g : GUI) :
  stop_detection g =
    release_camera (switched false "Start Detection" g).
Proof. destruct g; reflexivity. Qed.

Lemma start_detection_unfold (g : GUI) (available : bool)
    (grabbed : option Image) :
  start_detection available grabbed g =
    match initialize_camera available (switched true "Stop Detection" g) with
    | (Returned _, g') => update_frame grabbed g'
    | (Raised e, g') => (Raised e, g')
    end.
Proof. destruct g; reflexivity. Qed.

Lemma toggle_detection_running (g : GUI) (available : bool)
    (grabbed : option Image) :
  is_running g = true ->
  toggle_detection available grabbed g = stop_detection g.
Proof.
  intros H. unfold toggle_detection, bind at 1, read at 1. rewrite H.
  reflexivity.
Qed.

Lemma toggle_detection_idle (g : GUI) (available : bool)
    (grabbed : option Image) :
  is_running g = false ->
  toggle_detection available grabbed g = start_detection available grabbed g.
Proof.
  intros H. unfold toggle_detection, bind at 1, read at 1. rewrite H.
  reflexivity.
Qed.

(** ** The invariant *)

Lemma consistent_same_session (g g' : GUI) :
  same_session g g' -> consistent g -> consistent g'.
Proof.
  intros (_ & _ & Hc & Hr & Hb & _ & Hd & _) [H1 H2 H3 H4].
  split; rewrite ?Hc, ?Hr, ?Hb, ?Hd; assumption.
Qed.

Lemma consistent_main (m : YOLO) : consistent (main m).
Proof. split; simpl; congruence. Qed.

Lemma consistent_stop (g : GUI) :
  consistent g -> consistent (snd (stop_detection g)).
Proof.
  intros [H1 H2 H3 H4]. rewrite stop_detection_unfold.
  destruct (cap g) as [v|] eqn:Hcap.
  - rewrite (release_camera_held _ v) by (destruct g; exact Hcap).
    destruct g; simpl in *; subst.
    split; simpl; try congruence.
    destruct (isOpened v); simpl; [|reflexivity].
    rewrite Nat.eqb_refl. reflexivity.
  - rewrite release_camera_free by (destruct g; exact Hcap).
    destruct g; simpl in *; subst. split; simpl; congruence.
Qed.

Lemma consistent_start (g : GUI) (available : bool)
    (grabbed : option Image) :
  consistent g -> is_running g = false ->
  consistent (snd (start_detection available grabbed g)).
Proof.
  intros [H1 H2 H3 H4] Hidle. specialize (H2 Hidle).
  rewrite start_detection_unfold.
  rewrite initialize_camera_free by (destruct g; exact H2).
  assert (Hacq : consistent
                   (acquired available (switched true "Stop Detection" g))).
  { destruct g; simpl in *; subst.
    split; simpl; congruence. }
  destruct available; [|exact Hacq].
  eapply consistent_same_session; [apply update_frame_same_session|exact Hacq].
Qed.

Lemma consistent_step (g : GUI) (ev : TkEvent) :
  consistent g -> consistent (mainloop_step g ev).
Proof.
  intros Hg. destruct ev as [available grabbed|grabbed|t]; simpl.
  - destruct (is_running g) eqn:Hrun.
    + rewrite toggle_detection_running by assumption.
      now apply consistent_stop.
    + rewrite toggle_detection_idle by assumption.
      now apply consistent_start.
  - destruct (after_queue g) as [|n] eqn:Hq; [assumption|].
    eapply consistent_same_session; [apply update_frame_same_session|].
    destruct Hg, g; split; assumption.
  - destruct Hg, g; split; assumption.
Qed.

Lemma consistent_mainloop (evs : list TkEvent) :
  forall g, consistent g -> consistent (mainloop evs g).
Proof.
  induction evs as [|ev evs IH]; intros g Hg; simpl; [assumption|].
  apply IH, consistent_step, Hg.
Qed.

Lemma reachable_consistent (m : YOLO) (g : GUI) :
  reachable m g -> consistent g.
Proof.
  intros [evs ->]. apply consistent_mainloop, consistent_main.
Qed.

(** ** The display filter *)

(** C1: on a tick that reads a frame, whatever the threshold [t] of the
    slider, the detections listed and painted are those of the detection
    call whose confidence is at least [0.60], in the order of the call: a
    detection below [0.60] is dropped, one at exactly [0.60] is kept.  (The
    labels of the detections kept are taken to be in the table of the
    model.) *)
Theorem display_filter_cutoff (g : GUI) (v : VideoCapture) (img : Image)
    (t : float) :
  is_running g = true -> cap g = Some v -> isOpened v = true ->
  let nm := names (model g) in
  let frame := flip img 1 in
  let boxes := predict (model g) frame t in
  let kept := List.filter (fun b => ge (conf b) lit_0_60) boxes in
  (forall b, In b kept -> is_Some (nm !! cls b)) ->
  exists g',
    update_frame (Some img) (set_confidence_slider t g) = (Returned tt, g')
    /\ results_text g' = listing_text (map (spec_line nm) kept)
    /\ video_label g' =
         Some (cvtColor_BGR2RGB
                 (mkFrame frame (flat_map (spec_overlay nm) kept)))
    /\ (forall b, In b kept <-> In b boxes /\ ge (conf b) lit_0_60 = true)
    /\ (forall b, In b boxes -> lt (conf b) lit_0_60 = true -> ~ In b kept)
    /\ (forall b, In b boxes -> conf b = lit_0_60 -> In b kept).
Proof.
  intros Hrun Hcap Hopen nm frame boxes kept Hnames.
  assert (Hrun' : is_running (set_confidence_slider t g) = true)
    by (destruct g; exact Hrun).
  assert (Hcap' : cap (set_confidence_slider t g) = Some v)
    by (destruct g; exact Hcap).
  pose proof (update_frame_frame _ v img Hrun' Hcap' Hopen) as Hup.
  cbv zeta in Hup.
  replace (model (set_confidence_slider t g)) with (model g) in Hup
    by (destruct g; reflexivity).
  replace (confidence_slider (set_confidence_slider t g)) with t in Hup
    by (destruct g; reflexivity).
  fold frame boxes nm in Hup.
  assert (Hnone : first_unknown nm boxes = None).
  { apply first_unknown_None. intros b Hin Hs. apply Hnames.
    apply filter_In. split; assumption. }
  rewrite Hnone in Hup. eexists. split; [exact Hup|].
  split; [reflexivity|]. split; [reflexivity|].
  split; [intros b; apply filter_In|].
  split.
  - intros b _ Hlt Hin. apply filter_In in Hin as [_ Hge].
    rewrite (lt_not_ge _ _ Hlt) in Hge. discriminate.
  - intros b Hin Hc. apply filter_In. split; [assumption|].
    rewrite Hc. reflexivity.
Qed.

Lemma display_filter_cutoff_witness :
  exists g',
    update_frame (Some Demo.img) (set_confidence_slider lit_0_25 Demo.started)
      = (Returned tt, g')
    /\ results_text g' = "Letter A: 0.91" +:+ newline.
Proof.
  destruct (display_filter_cutoff Demo.started (mkCapture 0 true) Demo.img
              lit_0_25 eq_refl eq_refl eq_refl) as (g' & Hup & Htext & _).
  - intros b [<-|[]]. exists "A". reflexivity.
  - exists g'. split; [exact Hup | exact Htext].
Defined.

(** ** A read that fails *)

(** C3: a tick whose read of the camera fails (the capture object is not
    open, or the device delivers nothing) returns without raising; it calls
    neither the model nor a widget, leaves the running flag and the rest of
    the session as they were, and queues the next tick, so that the timer it
    was started from is replaced by a new one. *)
Theorem read_failure_skips_tick (g : GUI) (v : VideoCapture)
    (grabbed : option Image) :
  is_running g = true -> cap g = Some v ->
  isOpened v = false \/ grabbed = None ->
  exists g',
    update_frame grabbed g = (Returned tt, g')
    /\ is_running g' = true
    /\ same_session g g'
    /\ results_text g' = results_text g
    /\ video_label g' = video_label g
    /\ effects g' = effects g ++ [CameraRead (handle v); After 10]
    /\ after_queue g' = S (after_queue g)
    /\ (forall n, after_queue g = S n ->
          after_queue (mainloop_step g (TimerDue grabbed)) = S n).
Proof.
  intros Hrun Hcap Hfail.
  assert (Hread : (if isOpened v then grabbed else None) = None).
  { destruct Hfail as [-> | ->]; [reflexivity | now destruct (isOpened v)]. }
  rewrite (update_frame_no_frame g v grabbed Hrun Hcap Hread).
  eexists. split; [reflexivity|].
  split; [destruct g; exact Hrun|].
  split; [destruct g; repeat split|].
  split; [destruct g; reflexivity|].
  split; [destruct g; reflexivity|].
  split; [destruct g; reflexivity|].
  split; [destruct g; reflexivity|].
  intros n Hq. simpl. rewrite Hq.
  rewrite (update_frame_no_frame (set_after_queue n g) v grabbed);
    try assumption; destruct g; solve [reflexivity | assumption].
Qed.

Lemma read_failure_skips_tick_witness :
  exists g',
    update_frame None Demo.started = (Returned tt, g')
    /\ is_running g' = true
    /\ after_queue g' = 2%nat.
Proof.
  destruct (read_failure_skips_tick Demo.started (mkCapture 0 true) None
              eq_refl eq_refl (or_intror eq_refl))
    as (g' & Hup & Hrun & _ & _ & _ & _ & Hq & _).
  exists g'. split; [exact Hup|]. split; [exact Hrun | exact Hq].
Defined.

(** ** One camera handle *)

(** C4: in every state the controller can reach, at most one capture object
    holds the camera, and it is the one in [cap]; and [initialize_camera]
    called while [cap] holds a capture object returns at once, with the
    controller, device included, exactly as it was. *)
Theorem single_camera_handle (m : YOLO) (g : GUI) :
  reachable m g ->
  (length (device_holders g) <= 1)%nat
  /\ (forall h, In h (device_holders g) ->
        exists v, cap g = Some v /\ handle v = h /\ isOpened v = true)
  /\ (forall v available,
        cap g = Some v -> initialize_camera available g = (Returned tt, g)).
Proof.
  intros Hreach. destruct (reachable_consistent m g Hreach) as [Hh _ _ _].
  split; [|split].
  - rewrite Hh. destruct (cap g) as [v|]; [destruct (isOpened v)|]; simpl; lia.
  - intros h Hin. rewrite Hh in Hin.
    destruct (cap g) as [v|]; [|destruct Hin].
    destruct (isOpened v) eqn:Hopen; [|destruct Hin].
    destruct Hin as [<-|[]]. exists v. auto.
  - intros v available Hcap. exact (initialize_camera_held g v available Hcap).
Qed.

Lemma single_camera_handle_witness :
  (length (device_holders Demo.started) <= 1)%nat
  /\ initialize_camera true Demo.started = (Returned tt, Demo.started).
Proof.
  destruct (single_camera_handle Demo.model_AB Demo.started) as (Hlen & _ & Hacq).
  - exists [ButtonClick true (Some Demo.img)]. reflexivity.
  - split; [exact Hlen|]. exact (Hacq (mkCapture 0 true) true eq_refl).
Defined.

(** ** Stopping twice *)

(** C5: on a controller that is stopped, with its capture object released,
    the statements of the stop branch return without raising and without
    touching the device: the flag stays false, [cap] stays [None], and the
    button is told the text it already shows.  [release_camera] on a
    released controller changes nothing, and releasing, like stopping, a
    second time changes nothing the first time left. *)
Theorem stop_when_stopped (g : GUI) :
  is_running g = false -> cap g = None ->
  stop_detection g = (Returned tt, switched false "Start Detection" g)
  /\ (start_button g = "Start Detection" ->
      stop_detection g =
        (Returned tt,
         set_effects (effects g ++ [ButtonConfig "Start Detection"]) g))
  /\ release_camera g = (Returned tt, g)
  /\ del g = (Returned tt, g)
  /\ (forall g0,
        release_camera (snd (release_camera g0)) =
          (Returned tt, snd (release_camera g0)))
  /\ (forall g0,
        let g1 := snd (stop_detection g0) in
        fst (stop_detection g0) = Returned tt
        /\ stop_detection g1 =
             (Returned tt,
              set_effects (effects g1 ++ [ButtonConfig "Start Detection"])
                          g1)).
Proof.
  assert (Hstop : forall g', cap g' = None ->
            stop_detection g'
            = (Returned tt, switched false "Start Detection" g')).
  { intros g' Hc. rewrite stop_detection_unfold. apply release_camera_free.
    destruct g'; exact Hc. }
  assert (Hagain : forall g', is_running g' = false -> cap g' = None ->
            start_button g' = "Start Detection" ->
            stop_detection g'
            = (Returned tt,
               set_effects (effects g' ++ [ButtonConfig "Start Detection"])
                           g')).
  { intros g' Hr Hc Hb. rewrite (Hstop g' Hc).
    destruct g'; simpl in *; subst. reflexivity. }
  intros Hrun Hcap.
  split; [exact (Hstop g Hcap)|].
  split; [exact (Hagain g Hrun Hcap)|].
  split; [exact (release_camera_free g Hcap)|].
  split; [exact (release_camera_free g Hcap)|].
  split.
  - intros g0. apply release_camera_free.
    destruct (cap g0) as [v|] eqn:Hc.
    + rewrite (release_camera_held g0 v Hc). destruct g0; reflexivity.
    + rewrite (release_camera_free g0 Hc). exact Hc.
  - intros g0. cbv zeta.
    destruct g0 as [m c0 [v|] r b s x y q d n e];
      (split; [reflexivity | apply Hagain; reflexivity]).
Qed.

Lemma stop_when_stopped_witness :
  stop_detection (main Demo.model_AB) =
    (Returned tt,
     set_effects [ButtonConfig "Start Detection"] (main Demo.model_AB))
  /\ release_camera (main Demo.model_AB) = (Returned tt, main Demo.model_AB).
Proof.
  destruct (stop_when_stopped (main Demo.model_AB) eq_refl eq_refl)
    as (_ & Hstop & Hrel & _).
  split; [exact (Hstop eq_refl) | exact Hrel].
Defined.

(** ** A start that cannot open the camera *)

Lemma update_frame_appends (g : GUI) (grabbed : option Image) :
  exists l, effects (snd (update_frame grabbed g)) = effects g ++ l.
Proof.
  destruct (is_running g) eqn:Hrun.
  2:{ rewrite update_frame_idle by assumption. exists []. now rewrite app_nil_r. }
  destruct (cap g) as [v|] eqn:Hcap.
  2:{ unfold update_frame, bind at 1, read at 1. rewrite Hrun.
      unfold bind at 1, read at 1. rewrite Hcap.
      exists []. simpl. now rewrite app_nil_r. }
  destruct (if isOpened v then grabbed else None) as [img|] eqn:Hread.
  - destruct (isOpened v) eqn:Hopen; [subst grabbed | discriminate].
    rewrite (update_frame_frame g v img Hrun Hcap Hopen).
    destruct (first_unknown _ _); destruct g; eexists; reflexivity.
  - rewrite (update_frame_no_frame g v grabbed Hrun Hcap Hread).
    destruct g; eexists; reflexivity.
Qed.

(** The start branch on an idle controller when the device does not open:
    the exception leaves [toggle_detection] after the flag, the button and
    [cap] have been written, and before the first tick. *)
Lemma toggle_detection_cannot_open (g : GUI) (grabbed : option Image) :
  is_running g = false -> cap g = None ->
  toggle_detection false grabbed g =
    (Raised (Exception "Could not open camera"),
     acquired false (switched true "Stop Detection" g)).
Proof.
  intros Hrun Hcap. rewrite toggle_detection_idle by assumption.
  rewrite start_detection_unfold.
  rewrite initialize_camera_free by (destruct g; exact Hcap). reflexivity.
Qed.

(** The click after it takes the stop branch. *)
Lemma toggle_detection_after_cannot_open (g : GUI) (available : bool)
    (grabbed : option Image) :
  let g1 := acquired false (switched true "Stop Detection" g) in
  let v := mkCapture (next_handle g) false in
  toggle_detection available grabbed g1 =
    (Returned tt, released v (switched false "Start Detection" g1)).
Proof.
  cbv zeta. rewrite toggle_detection_running by (destruct g; reflexivity).
  rewrite stop_detection_unfold.
  apply release_camera_held. destruct g; reflexivity.
Qed.

(** The start branch on an idle controller when the device opens: whatever
    the first tick does, the controller runs and holds the device through a
    new capture object. *)
Lemma toggle_detection_opens (g : GUI) (grabbed : option Image) :
  is_running g = false -> cap g = None ->
  let g' := snd (toggle_detection true grabbed g) in
  is_running g' = true
  /\ cap g' = Some (mkCapture (next_handle g) true)
  /\ device_holders g' = device_holders g ++ [next_handle g]
  /\ In (CameraOpen (next_handle g) true) (effects g').
Proof.
  intros Hrun Hcap. cbv zeta.
  rewrite toggle_detection_idle by assumption.
  rewrite start_detection_unfold.
  rewrite initialize_camera_free by (destruct g; exact Hcap).
  set (g1 := acquired true (switched true "Stop Detection" g)).
  destruct (update_frame_same_session g1 grabbed)
    as (_ & _ & Hc & Hr & _ & _ & Hd & _).
  destruct (update_frame_appends g1 grabbed) as [l Hl].
  rewrite Hc, Hr, Hd, Hl. subst g1.
  destruct g; simpl. repeat split.
  rewrite !in_app_iff. left. right. now left.
Qed.

(** C7, as the code has it: a start on an idle controller that cannot open
    the camera raises "Could not open camera" to its caller before any tick
    is run or queued.  The controller is left running, with the capture
    object that did not open in [cap], so the next call of
    [toggle_detection] is a stop, which releases the capture object; the call
    after that one is a start again: it tries the device anew and, the
    device being available, ends up holding it. *)
Theorem cannot_open_recovery (g : GUI) (grabbed : option Image) :
  is_running g = false -> cap g = None ->
  exists g1,
    toggle_detection false grabbed g =
      (Raised (Exception "Could not open camera"), g1)
    /\ after_queue g1 = after_queue g
    /\ effects g1 =
         effects g ++ [ButtonConfig "Stop Detection";
                       CameraOpen (next_handle g) false]
    /\ is_running g1 = true
    /\ cap g1 = Some (mkCapture (next_handle g) false)
    /\ forall available grabbed1,
         exists g2,
           toggle_detection available grabbed1 g1 = (Returned tt, g2)
           /\ is_running g2 = false
           /\ cap g2 = None
           /\ forall grabbed2,
                let g3 := snd (toggle_detection true grabbed2 g2) in
                is_running g3 = true
                /\ cap g3 = Some (mkCapture (next_handle g2) true)
                /\ In (next_handle g2) (device_holders g3)
                /\ In (CameraOpen (next_handle g2) true) (effects g3).
Proof.
  intros Hrun Hcap. eexists.
  split; [exact (toggle_detection_cannot_open g grabbed Hrun Hcap)|].
  split; [destruct g; reflexivity|].
  split; [destruct g; simpl; now rewrite <- app_assoc|].
  split; [destruct g; reflexivity|].
  split; [destruct g; reflexivity|].
  intros available grabbed1. eexists.
  split; [exact (toggle_detection_after_cannot_open g available grabbed1)|].
  split; [destruct g; reflexivity|].
  split; [destruct g; reflexivity|].
  intros grabbed2.
  match goal with
  | |- context [toggle_detection true grabbed2 ?g2] =>
      destruct (toggle_detection_opens g2 grabbed2) as (Hr & Hc & Hd & He);
        [destruct g; reflexivity | destruct g; reflexivity |]
  end.
  cbv zeta. split; [exact Hr|]. split; [exact Hc|]. split; [|exact He].
  rewrite Hd. apply in_app_iff. right. now left.
Qed.

Lemma cannot_open_recovery_witness :
  exists g1,
    toggle_detection false None (main Demo.model_AB) =
      (Raised (Exception "Could not open camera"), g1)
    /\ after_queue g1 = 0%nat.
Proof.
  destruct (cannot_open_recovery (main Demo.model_AB) None eq_refl eq_refl)
    as (g1 & Htog & Hq & _).
  exists g1. split; [exact Htog | exact Hq].
Defined.

(** C7, as it is worded, fails: after a start that could not open the
    camera, a second call of [toggle_detection], with the camera now
    available, does not try the device and leaves the controller stopped
    without a capture object. *)
Lemma retry_after_cannot_open_stops :
  let g2 := snd (toggle_detection true (Some Demo.img) Demo.failed) in
  toggle_detection false None (main Demo.model_AB) =
    (Raised (Exception "Could not open camera"), Demo.failed)
  /\ ~ (exists v, cap g2 = Some v /\ isOpened v = true)
  /\ is_running g2 = false
  /\ effects g2 =
       [ButtonConfig "Stop Detection"; CameraOpen 0 false;
        ButtonConfig "Start Detection"; CameraRelease 0].
Proof.
  cbv zeta. split; [reflexivity|]. split; [|split; reflexivity].
  intros (v & Hcap & _). discriminate Hcap.
Qed.



(** ** After a stop *)

(** While the controller is idle and the button is left alone, the timers
    still in the queue come due one after the other and none of them does
    anything or queues a successor. *)
Lemma idle_mainloop (evs : list TkEvent) :
  forall g,
    is_running g = false ->
    forallb (fun ev => negb (is_click ev)) evs = true ->
    let g' := mainloop evs g in
    is_running g' = false
    /\ cap g' = cap g
    /\ device_holders g' = device_holders g
    /\ effects g' = effects g
    /\ results_text g' = results_text g
    /\ video_label g' = video_label g
    /\ after_queue g' =
         (after_queue g - length (List.filter is_timer evs))%nat.
Proof.
  induction evs as [|ev evs IH]; intros g Hrun Hevs; cbv zeta.
  - simpl. repeat split; try assumption. lia.
  - simpl in Hevs. apply andb_prop in Hevs as [Hev Hevs].
    change (mainloop (ev :: evs) g) with (mainloop evs (mainloop_step g ev)).
    destruct ev as [a r|r|t]; [discriminate Hev| |].
    + assert (Hstep : mainloop_step g (TimerDue r)
                      = set_after_queue (after_queue g - 1) g).
      { simpl. destruct (after_queue g) as [|n] eqn:Hq.
        - destruct g; simpl in *; subst; reflexivity.
        - rewrite update_frame_idle by (destruct g; exact Hrun).
          simpl. rewrite Nat.sub_0_r. reflexivity. }
      rewrite Hstep.
      destruct (IH (set_after_queue (after_queue g - 1) g))
        as (H1 & H2 & H3 & H4 & H5 & H6 & H7);
        [destruct g; exact Hrun | exact Hevs |].
      rewrite H1, H2, H3, H4, H5, H6, H7.
      destruct g; simpl. repeat split. lia.
    + destruct (IH (mainloop_step g (SliderSet t)))
        as (H1 & H2 & H3 & H4 & H5 & H6 & H7);
        [destruct g; exact Hrun | exact Hevs |].
      rewrite H1, H2, H3, H4, H5, H6, H7.
      destruct g; simpl. repeat split.
Qed.

(** C8: a click on a running controller stops it and leaves the timer queue
    as it was.  From then on a tick finds the flag false, does nothing and
    queues nothing: however many timers come due before the next click,
    nothing is read, predicted or shown, and the queue only shrinks, to
    nothing once every timer left in it has come due.  A tick that came due
    before the click is carried out in full, its frame shown and its
    successor queued, before the stop is. *)
Theorem stop_silences_ticks :
  (forall g available grabbed,
     is_running g = true ->
     exists g',
       toggle_detection available grabbed g = (Returned tt, g')
       /\ is_running g' = false
       /\ cap g' = None
       /\ after_queue g' = after_queue g)
  /\ (forall g grabbed,
        is_running g = false -> update_frame grabbed g = (Returned tt, g))
  /\ (forall g evs,
        is_running g = false ->
        forallb (fun ev => negb (is_click ev)) evs = true ->
        let g' := mainloop evs g in
        is_running g' = false
        /\ effects g' = effects g
        /\ results_text g' = results_text g
        /\ video_label g' = video_label g
        /\ after_queue g' =
             (after_queue g - length (List.filter is_timer evs))%nat)
  /\ (forall g v img n available grabbed,
        is_running g = true -> cap g = Some v -> isOpened v = true ->
        after_queue g = S n ->
        let frame := flip img 1 in
        let boxes := predict (model g) frame (confidence_slider g) in
        let kept := List.filter spec_survives boxes in
        (forall b, In b kept -> is_Some (names (model g) !! cls b)) ->
        mainloop [TimerDue (Some img); ButtonClick available grabbed] g =
          released v
            (switched false "Start Detection"
               (rendered (set_after_queue n g) v frame kept))).
Proof.
  split; [|split; [|split]].
  - intros g available grabbed Hrun.
    rewrite toggle_detection_running by assumption.
    rewrite stop_detection_unfold.
    destruct (cap g) as [v|] eqn:Hcap.
    + rewrite (release_camera_held _ v) by (destruct g; exact Hcap).
      eexists. split; [reflexivity|]. destruct g; repeat split.
    + rewrite release_camera_free by (destruct g; exact Hcap).
      eexists. split; [reflexivity|]. destruct g; repeat split. exact Hcap.
  - intros g grabbed. apply update_frame_idle.
  - intros g evs Hrun Hevs.
    destruct (idle_mainloop evs g Hrun Hevs)
      as (H1 & _ & _ & H4 & H5 & H6 & H7). auto.
  - intros g v img n available grabbed Hrun Hcap Hopen Hq frame boxes kept
           Hnames.
    simpl. rewrite Hq.
    assert (Hup : update_frame (Some img) (set_after_queue n g)
                  = (Returned tt, rendered (set_after_queue n g) v frame kept)).
    { rewrite (update_frame_frame (set_after_queue n g) v img);
        try solve [destruct g; assumption].
      cbv zeta.
      replace (model (set_after_queue n g)) with (model g)
        by (destruct g; reflexivity).
      replace (confidence_slider (set_after_queue n g))
        with (confidence_slider g) by (destruct g; reflexivity).
      fold frame boxes kept.
      replace (first_unknown (names (model g)) boxes) with (@None Z);
        [reflexivity|].
      symmetry. apply first_unknown_None. intros b Hin Hs. apply Hnames.
      apply filter_In. split; assumption. }
    rewrite Hup. simpl.
    rewrite toggle_detection_running by (destruct g; exact Hrun).
    rewrite stop_detection_unfold.
    rewrite (release_camera_held _ v) by (destruct g; exact Hcap).
    reflexivity.
Qed.

Lemma stop_silences_ticks_witness :
  (exists g',
     toggle_detection true None Demo.started = (Returned tt, g')
     /\ is_running g' = false /\ cap g' = None /\ after_queue g' = 1%nat)
  /\ update_frame (Some Demo.img) (main Demo.model_AB) =
       (Returned tt, main Demo.model_AB)
  /\ effects
       (mainloop [TimerDue (Some Demo.img); TimerDue None]
                 (snd (toggle_detection true None Demo.started)))
     = effects (snd (toggle_detection true None Demo.started))
  /\ results_text
       (mainloop [TimerDue (Some Demo.img); ButtonClick true None]
                 Demo.started)
     = "Letter A: 0.91" +:+ newline.
Proof.
  destruct stop_silences_ticks as (H1 & H2 & H3 & H4).
  split; [exact (H1 Demo.started true None eq_refl)|].
  split; [exact (H2 (main Demo.model_AB) (Some Demo.img) eq_refl)|].
  split.
  - destruct (H3 (snd (toggle_detection true None Demo.started))
                 [TimerDue (Some Demo.img); TimerDue None] eq_refl eq_refl)
      as (_ & He & _).
    exact He.
  - rewrite (H4 Demo.started (mkCapture 0 true) Demo.img 0%nat true None
               eq_refl eq_refl eq_refl eq_refl).
    + reflexivity.
    + intros b [<-|[]]. exists "A". reflexivity.
Defined.

(** ** The label table *)

(** C9: the label of a detection that passed the display filter is
    [model.names[class_id]] and nothing else.  If such a detection has a
    class id the table lacks, the tick raises [KeyError] on the first one,
    before anything is shown or queued; a tick that returns has listed every
    detection under the entry the table has for it; and when every class id
    the detection call returned is in the table, the tick returns. *)
Theorem label_lookup_no_fallback (g : GUI) (v : VideoCapture) (img : Image) :
  is_running g = true -> cap g = Some v -> isOpened v = true ->
  let nm := names (model g) in
  let frame := flip img 1 in
  let boxes := predict (model g) frame (confidence_slider g) in
  let kept := List.filter spec_survives boxes in
  ((exists b, In b kept /\ nm !! cls b = None) ->
   exists k,
     update_frame (Some img) g =
       (Raised (KeyError k),
        set_effects
          (effects g
             ++ [CameraRead (handle v); Predict frame (confidence_slider g)])
          g)
     /\ nm !! k = None
     /\ exists b, In b kept /\ cls b = k)
  /\ (forall g',
        update_frame (Some img) g = (Returned tt, g') ->
        results_text g' = listing_text (map (spec_line nm) kept)
        /\ forall b, In b kept ->
             exists l, nm !! cls b = Some l /\ spec_label nm b = l)
  /\ ((forall b, In b boxes -> is_Some (nm !! cls b)) ->
      update_frame (Some img) g = (Returned tt, rendered g v frame kept)).
Proof.
  intros Hrun Hcap Hopen nm frame boxes kept.
  pose proof (update_frame_frame g v img Hrun Hcap Hopen) as Hup.
  cbv zeta in Hup. fold nm frame boxes kept in Hup.
  split; [|split].
  - intros (b & Hin & Hnone).
    destruct (first_unknown nm boxes) as [k|] eqn:Hfirst.
    + exists k. split; [exact Hup|].
      destruct (first_unknown_Some nm boxes k Hfirst)
        as (b' & Hin' & Hk & Hs & Hmiss).
      split; [exact Hmiss|]. exists b'. split; [|exact Hk].
      apply filter_In. split; assumption.
    + apply filter_In in Hin as [Hin Hs].
      destruct (proj1 (first_unknown_None nm boxes) Hfirst b Hin Hs)
        as [l Hl].
      congruence.
  - intros g' Hret. rewrite Hret in Hup.
    destruct (first_unknown nm boxes) as [k|] eqn:Hfirst; [discriminate Hup|].
    injection Hup as ->. split; [reflexivity|].
    intros b Hin. apply filter_In in Hin as [Hin Hs].
    destruct (proj1 (first_unknown_None nm boxes) Hfirst b Hin Hs)
      as [l Hl].
    exists l. split; [exact Hl|].
    unfold spec_label. exact (lookup_total_correct _ _ _ Hl).
  - intros Hall. rewrite Hup.
    replace (first_unknown nm boxes) with (@None Z); [reflexivity|].
    symmetry. apply first_unknown_None. intros b Hin _. exact (Hall b Hin).
Qed.

Lemma label_lookup_no_fallback_witness :
  (exists k,
     fst (update_frame (Some Demo.img) Demo.started_unknown)
       = Raised (KeyError k)
     /\ names Demo.model_unknown !! k = None)
  /\ fst (update_frame (Some Demo.img) Demo.started) = Returned tt.
Proof.
  split.
  - destruct (label_lookup_no_fallback Demo.started_unknown
                (mkCapture 0 true) Demo.img eq_refl eq_refl eq_refl)
      as (Hraise & _).
    destruct Hraise as (k & Hup & Hk & _).
    + exists (mkBox 7 Demo.c_0_91 Demo.bbox2). split; [|reflexivity].
      right. left. reflexivity.
    + exists k. rewrite Hup. split; [reflexivity | exact Hk].
  - destruct (label_lookup_no_fallback Demo.started (mkCapture 0 true)
                Demo.img eq_refl eq_refl eq_refl) as (_ & _ & Hok).
    rewrite Hok; [reflexivity|].
    intros b [<-|[<-|[]]]; [exists "A" | exists "B"]; reflexivity.
Defined.

(** The tick raises exactly [KeyError 7] on the model that reports a class
    its table lacks, with the listing and the picture left as they were and
    no tick queued after it. *)
Example unknown_label_KeyError :
  let out := update_frame (Some Demo.img) Demo.started_unknown in
  fst out = Raised (KeyError 7)
  /\ results_text (snd out) = results_text Demo.started_unknown
  /\ video_label (snd out) = video_label Demo.started_unknown
  /\ after_queue (snd out) = after_queue Demo.started_unknown.
Proof. cbv zeta. repeat split. Qed.

(** ** The results listing *)

(** [round_half_even] picks an integer nearest to the fraction. *)
Lemma round_half_even_nearest (num den : Z) :
  (0 < den)%Z ->
  (2 * Z.abs (round_half_even num den * den - num) <= den)%Z.
Proof.
  intros Hden. unfold round_half_even.
  pose proof (Z.div_mod num den ltac:(lia)) as Hdm.
  pose proof (Z.mod_pos_bound num den Hden) as Hr.
  destruct (Z.compare_spec (2 * (num mod den)) den) as [Heq|Hlt|Hgt];
    [destruct (Z.even (num / den))| |]; nia.
Qed.

Lemma no_newline_app (s t : string) :
  no_newline (s +:+ t) = no_newline s && no_newline t.
Proof.
  induction s as [|c s IH]; [reflexivity|].
  rewrite append_cons. simpl. rewrite IH, andb_assoc. reflexivity.
Qed.

Lemma no_newline_uint (d : Decimal.uint) :
  no_newline (NilEmpty.string_of_uint d) = true.
Proof. induction d; simpl; auto. Qed.

Lemma no_newline_decimal (n : Z) : no_newline (decimal n) = true.
Proof.
  unfold decimal, NilZero.string_of_uint.
  destruct (N.to_uint (Z.to_N n)) eqn:E; try reflexivity;
    rewrite <- E; apply no_newline_uint.
Qed.

Lemma no_newline_digit (d : Z) :
  (0 <= d < 10)%Z -> no_newline (digit d) = true.
Proof.
  intros Hd.
  assert (H : d = 0 \/ d = 1 \/ d = 2 \/ d = 3 \/ d = 4 \/ d = 5 \/ d = 6
              \/ d = 7 \/ d = 8 \/ d = 9) by lia.
  repeat (destruct H as [->|H]; [reflexivity|]). subst d. reflexivity.
Qed.

Lemma no_newline_fixed2 (h : Z) : no_newline (fixed2 h) = true.
Proof.
  unfold fixed2. rewrite !no_newline_app, no_newline_decimal.
  rewrite !no_newline_digit; [reflexivity| |].
  - apply Z.mod_pos_bound. lia.
  - pose proof (Z.mod_pos_bound h 100 ltac:(lia)). split.
    + apply Z.div_pos; lia.
    + apply Z.div_lt_upper_bound; lia.
Qed.

Lemma no_newline_format_2f (x : float) : no_newline (format_2f x) = true.
Proof.
  destruct x as [s|s| |s m e]; simpl; try (destruct s; reflexivity);
    try reflexivity.
  destruct (scaled100 m e) as [num den].
  rewrite no_newline_app, no_newline_fixed2. destruct s; reflexivity.
Qed.

Lemma no_newline_spec_line (nm : gmap Z string) (b : Box) :
  no_newline (spec_label nm b) = true -> no_newline (spec_line nm b) = true.
Proof.
  intros H. unfold spec_line.
  rewrite !no_newline_app, H, no_newline_format_2f. reflexivity.
Qed.

Lemma lines_from_line (l : string) :
  forall cur rest,
    no_newline l = true ->
    lines_from cur (l +:+ newline +:+ rest) = (cur +:+ l) :: lines_from "" rest.
Proof.
  induction l as [|c l IH]; intros cur rest Hl.
  - change ("" +:+ newline +:+ rest) with (String (ascii_of_nat 10) rest).
    simpl. rewrite append_nil_r. reflexivity.
  - simpl in Hl. apply andb_prop in Hl as [Hc Hl].
    rewrite append_cons. simpl.
    destruct (Ascii.eqb c (ascii_of_nat 10)); [discriminate Hc|].
    rewrite IH by exact Hl. rewrite append_assoc. reflexivity.
Qed.

(** A listing made of lines without a newline in them reads back, line by
    line, as what was put in. *)
Lemma text_lines_listing (lines : list string) :
  Forall (fun l => no_newline l = true) lines ->
  text_lines (listing_text lines) = lines.
Proof.
  unfold text_lines. induction 1 as [|l lines Hl _ IH]; [reflexivity|].
  rewrite listing_text_cons, append_assoc.
  rewrite lines_from_line by exact Hl. rewrite IH. reflexivity.
Qed.

(** *** Reading the two decimals back *)

Lemma uint_value_pos (d : Decimal.uint) :
  forall a : positive, uint_value (Zpos a) d = Zpos (Pos.of_uint_acc d a).
Proof.
  induction d; intros a; simpl; try reflexivity;
    rewrite <- IHd; f_equal; lia.
Qed.

Lemma uint_value_0 (d : Decimal.uint) :
  uint_value 0 d = Z.of_N (Pos.of_uint d).
Proof.
  induction d; simpl; try reflexivity; try exact IHd;
    apply uint_value_pos.
Qed.

Lemma uint_value_to_uint (n : N) : uint_value 0 (N.to_uint n) = Z.of_N n.
Proof.
  rewrite uint_value_0. change (Pos.of_uint (N.to_uint n)) with (N.of_uint (N.to_uint n)).
  rewrite DecimalN.Unsigned.of_to. reflexivity.
Qed.

Lemma read_hundredths_from_uint (d : Decimal.uint) :
  forall acc rest,
    read_hundredths_from acc (NilEmpty.string_of_uint d +:+ rest)
    = read_hundredths_from (uint_value acc d) rest.
Proof.
  induction d; intros acc rest; simpl NilEmpty.string_of_uint;
    try reflexivity; rewrite append_cons; simpl uint_value;
    rewrite <- IHd; reflexivity.
Qed.

Lemma digit_value_digit (d : Z) :
  0 <= d < 10 ->
  digit_value (ascii_of_N (48 + Z.to_N d)) = Some d.
Proof.
  intros Hd.
  assert (H : d = 0 \/ d = 1 \/ d = 2 \/ d = 3 \/ d = 4 \/ d = 5 \/ d = 6
              \/ d = 7 \/ d = 8 \/ d = 9) by lia.
  repeat (destruct H as [->|H]; [reflexivity|]). subst d. reflexivity.
Qed.

Lemma nzhead_no_zero (d l : Decimal.uint) : Decimal.nzhead d <> Decimal.D0 l.
Proof. induction d; simpl; try discriminate; exact IHd. Qed.

Lemma to_uint_head (p : positive) :
  forall l, Pos.to_uint p <> Decimal.D0 l.
Proof.
  intros l Hp.
  pose proof (DecimalPos.Unsigned.to_of (Pos.to_uint p)) as H.
  rewrite DecimalPos.Unsigned.of_to in H.
  change (N.to_uint (N.pos p)) with (Pos.to_uint p) in H.
  rewrite Hp in H. unfold Decimal.unorm in H.
  change (Decimal.nzhead (Decimal.D0 l)) with (Decimal.nzhead l) in H.
  destruct (Decimal.nzhead l) eqn:E; try discriminate H.
  - injection H as ->. exact (DecimalPos.Unsigned.to_uint_nonzero p Hp).
  - exact (nzhead_no_zero _ _ E).
Qed.

Lemma to_uint_not_nil (n : N) : N.to_uint n <> Decimal.Nil.
Proof.
  destruct n as [|p]; [discriminate|].
  exact (DecimalPos.Unsigned.to_uint_nonnil p).
Qed.

Lemma decimal_digits (n : Z) :
  decimal n = NilEmpty.string_of_uint (N.to_uint (Z.to_N n)).
Proof.
  unfold decimal, NilZero.string_of_uint.
  pose proof (to_uint_not_nil (Z.to_N n)) as H.
  destruct (N.to_uint (Z.to_N n)); [contradiction | reflexivity ..].
Qed.

(** A numeral written by [decimal] passes the test on the digits in front
    of the point. *)
Lemma read_hundredths_decimal (n : Z) (rest : string) :
  read_hundredths (decimal n +:+ "." +:+ rest)
  = read_hundredths_from 0 (decimal n +:+ "." +:+ rest).
Proof.
  rewrite decimal_digits.
  destruct (Z.to_N n) as [|p]; [reflexivity|].
  change (N.to_uint (N.pos p)) with (Pos.to_uint p).
  pose proof (to_uint_head p) as Hhead.
  pose proof (DecimalPos.Unsigned.to_uint_nonnil p) as Hnil.
  destruct (Pos.to_uint p) as [|l|l|l|l|l|l|l|l|l|l];
    [contradiction | exfalso; exact (Hhead l eq_refl) | reflexivity ..].
Qed.

Lemma read_hundredths_fixed2 (h : Z) :
  0 <= h -> read_hundredths (fixed2 h) = Some h.
Proof.
  intros Hh. unfold fixed2.
  set (a := h mod 100 / 10). set (b := h mod 10).
  assert (Ha : 0 <= a < 10).
  { subst a. pose proof (Z.mod_pos_bound h 100 ltac:(lia)). split.
    - apply Z.div_pos; lia.
    - apply Z.div_lt_upper_bound; lia. }
  assert (Hb : 0 <= b < 10) by (apply Z.mod_pos_bound; lia).
  assert (Hsum : 100 * (h / 100) + 10 * a + b = h).
  { subst a b. clear Ha Hb. Z.div_mod_to_equations. lia. }
  rewrite read_hundredths_decimal, decimal_digits.
  rewrite read_hundredths_from_uint, uint_value_to_uint.
  rewrite Z2N.id by (apply Z.div_pos; lia).
  unfold digit.
  change (read_hundredths_from (h / 100)
            ("." +:+ String (ascii_of_N (48 + Z.to_N a)) ""
                 +:+ String (ascii_of_N (48 + Z.to_N b)) ""))
    with (match digit_value (ascii_of_N (48 + Z.to_N a)),
                digit_value (ascii_of_N (48 + Z.to_N b)) with
          | Some x, Some y => Some (100 * (h / 100) + 10 * x + y)
          | _, _ => None
          end).
  rewrite !digit_value_digit by assumption. f_equal. exact Hsum.
Qed.

Lemma round_half_even_tie (num den : Z) :
  0 < den ->
  2 * Z.abs (round_half_even num den * den - num) = den ->
  Z.even (round_half_even num den) = true.
Proof.
  intros Hden. unfold round_half_even.
  pose proof (Z.div_mod num den ltac:(lia)) as Hdm.
  pose proof (Z.mod_pos_bound num den Hden) as Hr.
  destruct (Z.compare_spec (2 * (num mod den)) den) as [Heq|Hlt|Hgt].
  - destruct (Z.even (num / den)) eqn:He; intros _; [exact He|].
    rewrite Z.even_add, He. reflexivity.
  - intros H. exfalso. nia.
  - intros H. exfalso. nia.
Qed.

Lemma round_half_even_nonneg (num den : Z) :
  0 <= num -> 0 < den -> 0 <= round_half_even num den.
Proof.
  intros Hnum Hden. unfold round_half_even.
  pose proof (Z.div_pos num den Hnum Hden).
  destruct (2 * (num mod den) ?= den)%Z; [destruct (Z.even _)| |]; lia.
Qed.

Lemma scaled100_spec (m : positive) (e : Z) :
  scaled100 m e = (100 * Zpos m * 2 ^ Z.max e 0, 2 ^ Z.max (- e) 0).
Proof.
  destruct e as [|p|p]; unfold scaled100.
  - reflexivity.
  - rewrite Z.max_l by lia. rewrite Z.max_r by lia. reflexivity.
  - rewrite Z.max_r by lia. rewrite Z.max_l by lia.
    change (- Z.neg p) with (Z.pos p). rewrite Z.pow_pos_fold.
    f_equal. lia.
Qed.

(** What the formatter writes for a confidence that passed the filter reads
    back as the nearest hundredth. *)
Lemma format_2f_two_decimals (c : float) :
  ge c lit_0_60 = true -> two_decimals c (format_2f c).
Proof.
  intros Hc.
  destruct c as [s|s| |s m e]; try (destruct s; discriminate Hc);
    try discriminate Hc.
  - destruct s; [discriminate Hc | reflexivity].
  - destruct s; [discriminate Hc|].
    unfold two_decimals, format_2f. rewrite scaled100_spec.
    set (num := 100 * Zpos m * 2 ^ Z.max e 0).
    set (den := 2 ^ Z.max (- e) 0).
    assert (Hden : 0 < den) by (apply Z.pow_pos_nonneg; lia).
    assert (Hnum : 0 <= num).
    { subst num. apply Z.mul_nonneg_nonneg; [lia|].
      apply Z.pow_nonneg. lia. }
    exists (round_half_even num den). split.
    + change (sign_prefix false +:+ fixed2 (round_half_even num den))
        with (fixed2 (round_half_even num den)).
      apply read_hundredths_fixed2, round_half_even_nonneg; assumption.
    + split; [apply round_half_even_nearest | apply round_half_even_tie];
        assumption.
Qed.

Example read_hundredths_samples :
  read_hundredths "0.91" = Some 91
  /\ read_hundredths "1.00" = Some 100
  /\ read_hundredths "12.05" = Some 1205
  /\ read_hundredths "00.91" = None
  /\ read_hundredths ".91" = None
  /\ read_hundredths "0.9" = None
  /\ read_hundredths "0.910" = None
  /\ read_hundredths "0,91" = None.
Proof. repeat split. Qed.

(** C2: on a tick that reads a frame, the text of the results listing is
    made of one line per detection that passed the display filter, in the
    order of the detection call.  Each line reads "Letter", the label of the
    table, a colon and the confidence rounded to two decimals: a numeral
    with exactly two digits after the point that stands for the hundredth
    nearest to the confidence (the even one of two equally near).  Read back
    line by line (labels being free of newlines) the listing has exactly
    those lines.  For an A at 0.91 and a B at 0.55 the listing is the single
    line "Letter A: 0.91". *)
Theorem results_listing :
  (forall (g : GUI) (v : VideoCapture) (img : Image),
     is_running g = true -> cap g = Some v -> isOpened v = true ->
     let nm := names (model g) in
     let boxes := predict (model g) (flip img 1) (confidence_slider g) in
     let kept := List.filter spec_survives boxes in
     (forall b, In b kept -> is_Some (nm !! cls b)) ->
     exists g' lines,
       update_frame (Some img) g = (Returned tt, g')
       /\ results_text g' = listing_text lines
       /\ Forall2
            (fun b line =>
               exists l text,
                 nm !! cls b = Some l
                 /\ line = "Letter " +:+ l +:+ ": " +:+ text
                 /\ two_decimals (conf b) text)
            kept lines
       /\ ((forall b l, In b kept -> nm !! cls b = Some l ->
                        no_newline l = true) ->
           text_lines (results_text g') = lines
           /\ length (text_lines (results_text g')) = length kept))
  /\ (forall (g : GUI) (v : VideoCapture) (img : Image) (ca cb : Z)
             (bbox1 bbox2 : Z * Z * Z * Z),
        is_running g = true -> cap g = Some v -> isOpened v = true ->
        names (model g) !! ca = Some "A" ->
        names (model g) !! cb = Some "B" ->
        predict (model g) (flip img 1) (confidence_slider g) =
          [mkBox ca Demo.c_0_91 bbox1; mkBox cb Demo.c_0_55 bbox2] ->
        exists g',
          update_frame (Some img) g = (Returned tt, g')
          /\ results_text g' = "Letter A: 0.91" +:+ newline
          /\ text_lines (results_text g') = ["Letter A: 0.91"]).
Proof.
  assert (Hgen : forall (g : GUI) (v : VideoCapture) (img : Image),
     is_running g = true -> cap g = Some v -> isOpened v = true ->
     let nm := names (model g) in
     let boxes := predict (model g) (flip img 1) (confidence_slider g) in
     let kept := List.filter spec_survives boxes in
     (forall b, In b kept -> is_Some (nm !! cls b)) ->
     update_frame (Some img) g = (Returned tt, rendered g v (flip img 1) kept)).
  { intros g v img Hrun Hcap Hopen nm boxes kept Hnames.
    rewrite (update_frame_frame g v img Hrun Hcap Hopen). cbv zeta.
    fold nm boxes kept.
    replace (first_unknown nm boxes) with (@None Z); [reflexivity|].
    symmetry. apply first_unknown_None. intros b Hin Hs. apply Hnames.
    apply filter_In. split; assumption. }
  split.
  - intros g v img Hrun Hcap Hopen nm boxes kept Hnames.
    exists (rendered g v (flip img 1) kept), (map (spec_line nm) kept).
    split; [exact (Hgen g v img Hrun Hcap Hopen Hnames)|].
    split; [reflexivity|].
    assert (Hkept : forall b, In b kept -> ge (conf b) lit_0_60 = true).
    { intros b Hin. apply filter_In in Hin as [_ Hs]. exact Hs. }
    split.
    + clearbody kept. clear boxes.
      induction kept as [|b kept IH]; simpl; constructor.
      * destruct (Hnames b (or_introl eq_refl)) as [l Hl].
        exists l, (format_2f (conf b)). split; [exact Hl|]. split.
        -- unfold spec_line, spec_label.
           rewrite (lookup_total_correct _ _ _ Hl). reflexivity.
        -- apply format_2f_two_decimals, Hkept. now left.
      * apply IH; intros b' Hin; [apply Hnames | apply Hkept]; now right.
    + intros Hnl. simpl results_text.
      rewrite text_lines_listing.
      * split; [reflexivity | apply length_map].
      * apply Forall_forall. intros line Hin. apply list_elem_of_In in Hin.
        apply in_map_iff in Hin as (b & <- & Hb).
        apply no_newline_spec_line.
        destruct (Hnames b Hb) as [l Hl]. unfold spec_label.
        rewrite (lookup_total_correct _ _ _ Hl). exact (Hnl b l Hb Hl).
  - intros g v img ca cb bbox1 bbox2 Hrun Hcap Hopen HA HB Hpred.
    eexists. split.
    + apply (Hgen g v img Hrun Hcap Hopen). rewrite Hpred.
      intros b [<-|[]]. simpl. eauto.
    + rewrite Hpred. simpl. unfold spec_line, spec_label. simpl.
      rewrite (lookup_total_correct _ _ _ HA). split; reflexivity.
Qed.

Lemma results_listing_witness :
  (exists g' lines,
     update_frame (Some Demo.img) Demo.started = (Returned tt, g')
     /\ results_text g' = listing_text lines
     /\ text_lines (results_text g') = lines)
  /\ exists g',
       update_frame (Some Demo.img) Demo.started = (Returned tt, g')
       /\ results_text g' = "Letter A: 0.91" +:+ newline
       /\ text_lines (results_text g') = ["Letter A: 0.91"].
Proof.
  split.
  - destruct (proj1 results_listing Demo.started (mkCapture 0 true) Demo.img
                eq_refl eq_refl eq_refl)
      as (g' & lines & Hup & Htext & _ & Hlines).
    + intros b [<-|[]]. exists "A". reflexivity.
    + exists g', lines. split; [exact Hup|]. split; [exact Htext|].
      apply Hlines. intros b l [<-|[]] [= <-]. reflexivity.
  - exact (proj2 results_listing Demo.started (mkCapture 0 true) Demo.img 0 1
             Demo.bbox1 Demo.bbox2 eq_refl eq_refl eq_refl eq_refl eq_refl
             eq_refl).
Defined.

(** * Further properties *)

(** ** The timer queue *)

Lemma labels_cover_first_unknown (m : YOLO) (frame : Image) (t : float) :
  labels_cover m -> first_unknown (names m) (predict m frame t) = None.
Proof.
  intros Hm. apply first_unknown_None. intros b Hin Hs.
  exact (Hm frame t b Hin Hs).
Qed.

(** A tick of a running controller whose table covers the model returns and
    leaves one more timer in the queue, whatever the read brought. *)
Lemma update_frame_requeues (g : GUI) (v : VideoCapture)
    (grabbed : option Image) :
  labels_cover (model g) -> is_running g = true -> cap g = Some v ->
  fst (update_frame grabbed g) = Returned tt
  /\ after_queue (snd (update_frame grabbed g)) = S (after_queue g).
Proof.
  intros Hm Hrun Hcap.
  destruct (if isOpened v then grabbed else None) as [img|] eqn:Hread.
  - destruct (isOpened v) eqn:Hopen; [subst grabbed | discriminate].
    rewrite (update_frame_frame g v img Hrun Hcap Hopen).
    rewrite labels_cover_first_unknown by exact Hm.
    destruct g; split; reflexivity.
  - rewrite (update_frame_no_frame g v grabbed Hrun Hcap Hread).
    destruct g; split; reflexivity.
Qed.

(** X5: while the button is left alone, a running controller whose label
    table covers its model keeps its tick going: every timer that comes due
    is replaced by exactly one new timer, so the queue neither drains nor
    grows, and the controller stays running with the capture object it
    has. *)
Theorem tick_chain_kept (evs : list TkEvent) :
  forall (g : GUI) (v : VideoCapture),
    labels_cover (model g) -> is_running g = true -> cap g = Some v ->
    forallb (fun ev => negb (is_click ev)) evs = true ->
    let g' := mainloop evs g in
    after_queue g' = after_queue g
    /\ is_running g' = true
    /\ cap g' = Some v
    /\ device_holders g' = device_holders g.
Proof.
  induction evs as [|ev evs IH]; intros g v Hm Hrun Hcap Hevs; cbv zeta.
  - repeat split; assumption.
  - simpl in Hevs. apply andb_prop in Hevs as [Hev Hevs].
    change (mainloop (ev :: evs) g) with (mainloop evs (mainloop_step g ev)).
    assert (Hstep : labels_cover (model (mainloop_step g ev))
                    /\ is_running (mainloop_step g ev) = true
                    /\ cap (mainloop_step g ev) = Some v
                    /\ after_queue (mainloop_step g ev) = after_queue g
                    /\ device_holders (mainloop_step g ev) = device_holders g).
    { destruct ev as [a r|r|t]; [discriminate Hev| |].
      - simpl. destruct (after_queue g) as [|n] eqn:Hq.
        + rewrite Hq. auto.
        + destruct (update_frame_same_session (set_after_queue n g) r)
            as (Hmod & _ & Hc & Hr & _ & _ & Hd & _).
          rewrite Hmod, Hc, Hr, Hd.
          destruct (update_frame_requeues (set_after_queue n g) v r)
            as [_ Hqueue]; try (destruct g; assumption).
          rewrite Hqueue. destruct g; simpl in *. auto.
      - destruct g; simpl in *. auto. }
    destruct Hstep as (Hm' & Hrun' & Hcap' & Hq' & Hd').
    destruct (IH _ v Hm' Hrun' Hcap' Hevs) as (H1 & H2 & H3 & H4).
    rewrite H1, H2, H3, H4. auto.
Qed.

Lemma labels_cover_AB : labels_cover Demo.model_AB.
Proof.
  intros frame t b [<-|[<-|[]]] Hs; [exists "A" | exists "B"]; reflexivity.
Qed.

Lemma tick_chain_kept_witness :
  after_queue
    (mainloop [TimerDue (Some Demo.img); SliderSet lit_0_7; TimerDue None]
              Demo.started) = 1%nat.
Proof.
  exact (proj1 (tick_chain_kept
                  [TimerDue (Some Demo.img); SliderSet lit_0_7; TimerDue None]
                  Demo.started (mkCapture 0 true) labels_cover_AB
                  eq_refl eq_refl eq_refl)).
Defined.

(** With no timer in the queue and the button left alone, nothing happens
    any more. *)
Lemma empty_queue_frozen (evs : list TkEvent) :
  forall g,
    after_queue g = 0%nat ->
    forallb (fun ev => negb (is_click ev)) evs = true ->
    let g' := mainloop evs g in
    after_queue g' = 0%nat
    /\ effects g' = effects g
    /\ is_running g' = is_running g
    /\ cap g' = cap g
    /\ device_holders g' = device_holders g
    /\ results_text g' = results_text g
    /\ video_label g' = video_label g.
Proof.
  induction evs as [|ev evs IH]; intros g Hq Hevs; cbv zeta.
  - repeat split; assumption.
  - simpl in Hevs. apply andb_prop in Hevs as [Hev Hevs].
    change (mainloop (ev :: evs) g) with (mainloop evs (mainloop_step g ev)).
    destruct ev as [a r|r|t]; [discriminate Hev| |].
    + simpl mainloop_step. rewrite Hq. exact (IH g Hq Hevs).
    + destruct (IH (mainloop_step g (SliderSet t)))
        as (H1 & H2 & H3 & H4 & H5 & H6 & H7);
        [destruct g; exact Hq | exact Hevs |].
      rewrite H1, H2, H3, H4, H5, H6, H7. destruct g; repeat split.
Qed.

(** X4: a tick that meets a class id without a label ends the loop for
    good.  When the last timer of a running controller comes due and the
    tick raises [KeyError], no timer is queued in its place: the controller
    still says it is running and still holds the camera, but until the
    button is clicked nothing is read, predicted or shown again. *)
Theorem unknown_label_ends_loop (g : GUI) (v : VideoCapture) (img : Image) :
  is_running g = true -> cap g = Some v -> isOpened v = true ->
  after_queue g = 1%nat ->
  (exists b,
     In b (predict (model g) (flip img 1) (confidence_slider g))
     /\ ge (conf b) lit_0_60 = true
     /\ names (model g) !! cls b = None) ->
  let g' := mainloop_step g (TimerDue (Some img)) in
  after_queue g' = 0%nat
  /\ is_running g' = true
  /\ cap g' = Some v
  /\ device_holders g' = device_holders g
  /\ start_button g' = start_button g
  /\ results_text g' = results_text g
  /\ video_label g' = video_label g
  /\ forall evs,
       forallb (fun ev => negb (is_click ev)) evs = true ->
       effects (mainloop evs g') = effects g'
       /\ after_queue (mainloop evs g') = 0%nat
       /\ is_running (mainloop evs g') = true.
Proof.
  intros Hrun Hcap Hopen Hq (b & Hin & Hs & Hnone) g'.
  assert (Hg' : g' = set_effects
                      (effects g
                         ++ [CameraRead (handle v);
                             Predict (flip img 1) (confidence_slider g)])
                      (set_after_queue 0 g)).
  { subst g'. simpl. rewrite Hq.
    rewrite (update_frame_frame (set_after_queue 0 g) v img);
      try solve [destruct g; assumption].
    cbv zeta.
    replace (model (set_after_queue 0 g)) with (model g)
      by (destruct g; reflexivity).
    replace (confidence_slider (set_after_queue 0 g))
      with (confidence_slider g) by (destruct g; reflexivity).
    destruct (first_unknown (names (model g))
                (predict (model g) (flip img 1) (confidence_slider g)))
      as [k|] eqn:Hfirst.
    - destruct g; reflexivity.
    - destruct (proj1 (first_unknown_None _ _) Hfirst b Hin Hs) as [l Hl].
      congruence. }
  clearbody g'. subst g'.
  split; [destruct g; reflexivity|].
  split; [destruct g; exact Hrun|].
  split; [destruct g; exact Hcap|].
  split; [destruct g; reflexivity|].
  split; [destruct g; reflexivity|].
  split; [destruct g; reflexivity|].
  split; [destruct g; reflexivity|].
  intros evs Hevs.
  match goal with
  | |- context [mainloop evs ?g0] =>
      destruct (empty_queue_frozen evs g0) as (H1 & H2 & H3 & _);
        [destruct g; reflexivity | exact Hevs |]
  end.
  rewrite H1, H2, H3. destruct g; repeat split. exact Hrun.
Qed.

Lemma unknown_label_ends_loop_witness :
  let g' := mainloop_step Demo.started_unknown (TimerDue (Some Demo.img)) in
  after_queue g' = 0%nat
  /\ is_running g' = true
  /\ effects (mainloop [TimerDue (Some Demo.img); TimerDue None] g')
     = effects g'.
Proof.
  destruct (unknown_label_ends_loop Demo.started_unknown (mkCapture 0 true)
              Demo.img eq_refl eq_refl eq_refl eq_refl)
    as (Hq & Hrun & _ & _ & _ & _ & _ & Hfrozen).
  - exists (mkBox 7 Demo.c_0_91 Demo.bbox2).
    split; [right; left; reflexivity | split; reflexivity].
  - cbv zeta. split; [exact Hq|]. split; [exact Hrun|].
    exact (proj1 (Hfrozen [TimerDue (Some Demo.img); TimerDue None] eq_refl)).
Defined.

(** ** Stop, then start *)

(** What the stop branch leaves of a controller that kept the invariant. *)
Lemma stop_detection_leaves (g : GUI) :
  consistent g ->
  let g1 := snd (stop_detection g) in
  fst (stop_detection g) = Returned tt
  /\ is_running g1 = false
  /\ cap g1 = None
  /\ device_holders g1 = []
  /\ next_handle g1 = next_handle g
  /\ after_queue g1 = after_queue g
  /\ model g1 = model g.
Proof.
  intros Hg. cbv zeta.
  pose proof (consistent_stop g Hg) as Hstop.
  assert (H : fst (stop_detection g) = Returned tt
              /\ is_running (snd (stop_detection g)) = false
              /\ next_handle (snd (stop_detection g)) = next_handle g
              /\ after_queue (snd (stop_detection g)) = after_queue g
              /\ model (snd (stop_detection g)) = model g).
  { rewrite stop_detection_unfold.
    destruct (cap g) as [v|] eqn:Hcap.
    - rewrite (release_camera_held _ v) by (destruct g; exact Hcap).
      destruct g; repeat split.
    - rewrite release_camera_free by (destruct g; exact Hcap).
      destruct g; repeat split. }
  destruct H as (H0 & H1 & H2 & H3 & H4).
  pose proof (idle_released _ Hstop H1) as Hnone.
  pose proof (holders_cap _ Hstop) as Hh. rewrite Hnone in Hh.
  auto 10.
Qed.

(** X3: a stop followed by a start with the camera at hand takes the camera
    again.  From any running state the controller can reach, the two clicks
    leave it running with a new capture object, which holds the device and
    is the only one that does. *)
Theorem restart_reacquires (m : YOLO) (g : GUI) (available : bool)
    (grabbed grabbed' : option Image) :
  reachable m g -> is_running g = true ->
  let g' := mainloop [ButtonClick available grabbed;
                      ButtonClick true grabbed'] g in
  is_running g' = true
  /\ cap g' = Some (mkCapture (next_handle g) true)
  /\ device_holders g' = [next_handle g]
  /\ In (CameraOpen (next_handle g) true) (effects g').
Proof.
  intros Hreach Hrun g'. subst g'. simpl.
  pose proof (reachable_consistent m g Hreach) as Hg.
  rewrite (toggle_detection_running g available grabbed Hrun).
  destruct (stop_detection_leaves g Hg) as (_ & Hidle & Hnone & Hh & Hn & _).
  destruct (toggle_detection_opens _ grabbed' Hidle Hnone)
    as (Hr & Hc & Hd & He).
  rewrite Hn, Hh in *. auto.
Qed.

Lemma restart_reacquires_witness :
  let g' := mainloop [ButtonClick true None; ButtonClick true None]
                     Demo.started in
  cap g' = Some (mkCapture 1 true) /\ device_holders g' = [1%nat].
Proof.
  destruct (restart_reacquires Demo.model_AB Demo.started true None None)
    as (_ & Hc & Hd & _).
  - exists [ButtonClick true (Some Demo.img)]. reflexivity.
  - reflexivity.
  - cbv zeta. split; [exact Hc | exact Hd].
Defined.

(** X6: a stop does not take the pending timer out of the queue, and a start
    runs a tick of its own.  So a stop and a start clicked before that timer
    is due leave one timer more in the queue than there was (the table
    covering the model), with the controller running: from then on two ticks
    run where one did. *)
Theorem quick_restart_doubles_ticks (m : YOLO) (g : GUI) (available : bool)
    (grabbed grabbed' : option Image) :
  reachable m g -> labels_cover (model g) -> is_running g = true ->
  let g1 := mainloop [ButtonClick available grabbed] g in
  let g' := mainloop [ButtonClick available grabbed;
                      ButtonClick true grabbed'] g in
  after_queue g1 = after_queue g
  /\ after_queue g' = S (after_queue g)
  /\ is_running g' = true
  /\ labels_cover (model g').
Proof.
  intros Hreach Hm Hrun g1 g'. subst g1 g'. simpl.
  pose proof (reachable_consistent m g Hreach) as Hg.
  rewrite (toggle_detection_running g available grabbed Hrun).
  destruct (stop_detection_leaves g Hg)
    as (_ & Hidle & Hnone & _ & _ & Hq & Hmod).
  set (g1 := snd (stop_detection g)) in *.
  split; [exact Hq|].
  rewrite (toggle_detection_idle g1 true grabbed' Hidle).
  rewrite start_detection_unfold.
  rewrite initialize_camera_free by (destruct g1; exact Hnone).
  set (g2 := acquired true (switched true "Stop Detection" g1)).
  assert (H2 : model g2 = model g1 /\ is_running g2 = true
               /\ cap g2 = Some (mkCapture (next_handle g1) true)
               /\ after_queue g2 = after_queue g1)
    by (destruct g1; repeat split).
  destruct H2 as (Hmod2 & Hrun2 & Hcap2 & Hq2).
  assert (Hm2 : labels_cover (model g2)) by (rewrite Hmod2, Hmod; exact Hm).
  destruct (update_frame_requeues g2 _ grabbed' Hm2 Hrun2 Hcap2)
    as [_ Hqueue].
  destruct (update_frame_same_session g2 grabbed')
    as (Hmod3 & _ & _ & Hr3 & _).
  rewrite Hqueue, Hq2, Hq, Hr3, Hmod3. auto.
Qed.

Lemma quick_restart_doubles_ticks_witness :
  after_queue
    (mainloop [ButtonClick true None; ButtonClick true (Some Demo.img)]
              Demo.started) = 2%nat.
Proof.
  destruct (quick_restart_doubles_ticks Demo.model_AB Demo.started true None
              (Some Demo.img)) as (_ & Hq & _).
  - exists [ButtonClick true (Some Demo.img)]. reflexivity.
  - exact labels_cover_AB.
  - reflexivity.
  - exact Hq.
Defined.

(** ** Letting go of the camera *)

(** X2: in every state the controller can reach, [__del__] returns without
    raising and leaves the camera free: no capture object holds the device
    and [cap] is [None].  It does so whether the controller runs or not, and
    leaves the running flag and the timer queue as they are. *)
Theorem del_frees_camera (m : YOLO) (g : GUI) :
  reachable m g ->
  exists g',
    del g = (Returned tt, g')
    /\ device_holders g' = []
    /\ cap g' = None
    /\ is_running g' = is_running g
    /\ after_queue g' = after_queue g.
Proof.
  intros Hreach. destruct (reachable_consistent m g Hreach) as [Hh _ _ _].
  unfold del. destruct (cap g) as [v|] eqn:Hcap.
  - rewrite (release_camera_held g v Hcap). eexists. split; [reflexivity|].
    destruct g; simpl in *. subst. repeat split.
    destruct (isOpened v); simpl; [|reflexivity].
    rewrite Nat.eqb_refl. reflexivity.
  - rewrite (release_camera_free g Hcap). eexists. split; [reflexivity|].
    auto.
Qed.

Lemma del_frees_camera_witness :
  exists g',
    del Demo.started = (Returned tt, g')
    /\ device_holders g' = [] /\ cap g' = None /\ is_running g' = true.
Proof.
  destruct (del_frees_camera Demo.model_AB Demo.started)
    as (g' & Hdel & Hh & Hc & Hr & _).
  - exists [ButtonClick true (Some Demo.img)]. reflexivity.
  - exists g'. auto.
Defined.

(** ** The camera protocol *)

Lemma camera_protocol_app (l1 l2 : list Effect) :
  forall current,
    camera_protocol current (l1 ++ l2) =
      match camera_protocol current l1 with
      | Some current' => camera_protocol current' l2
      | None => None
      end.
Proof.
  induction l1 as [|e l1 IH]; intros current; [reflexivity|].
  destruct e; simpl; try apply IH;
    destruct current as [h'|]; try reflexivity;
    try (destruct (Nat.eqb h h')); try reflexivity; apply IH.
Qed.

Lemma camera_protocol_inserts (lines : list string) (rest : list Effect)
    (current : option nat) :
  camera_protocol current
    (map (fun l => ResultsInsert (l +:+ newline)) lines ++ rest)
  = camera_protocol current rest.
Proof. induction lines as [|l lines IH]; [reflexivity | exact IH]. Qed.

(** A tick keeps to the protocol: what it does with the camera, it does
    through the capture object in [cap]. *)
Lemma update_frame_protocol (g : GUI) (grabbed : option Image) :
  camera_protocol None (effects g) = Some (handle <$> cap g) ->
  camera_protocol None (effects (snd (update_frame grabbed g)))
  = Some (handle <$> cap g).
Proof.
  intros Hp.
  destruct (is_running g) eqn:Hrun.
  2:{ rewrite update_frame_idle by assumption. exact Hp. }
  destruct (cap g) as [v|] eqn:Hcap.
  2:{ unfold update_frame, bind at 1, read at 1. rewrite Hrun.
      unfold bind at 1, read at 1. rewrite Hcap. exact Hp. }
  destruct (if isOpened v then grabbed else None) as [img|] eqn:Hread.
  - destruct (isOpened v) eqn:Hopen; [subst grabbed | discriminate].
    rewrite (update_frame_frame g v img Hrun Hcap Hopen).
    destruct (first_unknown _ _).
    + replace (effects _) with
        (effects g ++ [CameraRead (handle v);
                       Predict (flip img 1) (confidence_slider g)])
        by (destruct g; reflexivity).
      rewrite camera_protocol_app, Hp. simpl. rewrite Nat.eqb_refl.
      reflexivity.
    + unfold rendered. simpl effects. unfold tick_effects.
      rewrite camera_protocol_app, Hp. simpl. rewrite Nat.eqb_refl.
      rewrite camera_protocol_inserts. reflexivity.
  - rewrite (update_frame_no_frame g v grabbed Hrun Hcap Hread).
    replace (effects _) with
      (effects g ++ [CameraRead (handle v); After 10])
      by (destruct g; reflexivity).
    rewrite camera_protocol_app, Hp. simpl. rewrite Nat.eqb_refl.
    reflexivity.
Qed.

Lemma mainloop_step_protocol (g : GUI) (ev : TkEvent) :
  consistent g ->
  camera_protocol None (effects g) = Some (handle <$> cap g) ->
  camera_protocol None (effects (mainloop_step g ev))
  = Some (handle <$> cap (mainloop_step g ev)).
Proof.
  intros Hg Hp. destruct ev as [available grabbed|grabbed|t]; simpl.
  - destruct (is_running g) eqn:Hrun.
    + rewrite toggle_detection_running by assumption.
      rewrite stop_detection_unfold.
      destruct (cap g) as [v|] eqn:Hcap;
        [|exfalso; exact (running_holds g Hg Hrun Hcap)].
      rewrite (release_camera_held _ v) by (destruct g; exact Hcap).
      replace (effects _) with
        (effects g ++ [ButtonConfig "Start Detection";
                       CameraRelease (handle v)])
        by (destruct g; simpl; now rewrite <- app_assoc).
      rewrite camera_protocol_app, Hp. simpl. rewrite Nat.eqb_refl.
      destruct g; reflexivity.
    + rewrite toggle_detection_idle by assumption.
      rewrite start_detection_unfold.
      pose proof (idle_released g Hg Hrun) as Hcap. rewrite Hcap in Hp.
      rewrite initialize_camera_free by (destruct g; exact Hcap).
      set (g1 := acquired available (switched true "Stop Detection" g)).
      assert (Hp1 : camera_protocol None (effects g1)
                    = Some (handle <$> cap g1)).
      { replace (effects g1) with
          (effects g ++ [ButtonConfig "Stop Detection";
                         CameraOpen (next_handle g) available])
          by (destruct g; simpl; now rewrite <- app_assoc).
        rewrite camera_protocol_app, Hp. destruct g; reflexivity. }
      destruct available; [|exact Hp1].
      destruct (update_frame_same_session g1 grabbed)
        as (_ & _ & Hc & _).
      rewrite Hc. apply update_frame_protocol, Hp1.
  - destruct (after_queue g) as [|n]; [exact Hp|].
    destruct (update_frame_same_session (set_after_queue n g) grabbed)
      as (_ & _ & Hc & _).
    rewrite Hc.
    replace (cap (set_after_queue n g)) with (cap g)
      by (destruct g; reflexivity).
    replace (cap g) with (cap (set_after_queue n g))
      by (destruct g; reflexivity).
    apply update_frame_protocol. destruct g; exact Hp.
  - destruct g; exact Hp.
Qed.

(** X1: whatever is clicked and whenever timers come due, the controller
    deals with the camera in order.  It makes a capture object only when it
    has none, it reads and releases only through the capture object it has,
    and it releases none twice; the capture object the trace ends with is
    the one in [cap]. *)
Theorem camera_protocol_kept (m : YOLO) (evs : list TkEvent) :
  camera_protocol None (effects (mainloop evs (main m)))
  = Some (handle <$> cap (mainloop evs (main m))).
Proof.
  assert (H : forall g,
             consistent g ->
             camera_protocol None (effects g) = Some (handle <$> cap g) ->
             camera_protocol None (effects (mainloop evs g))
             = Some (handle <$> cap (mainloop evs g))).
  { induction evs as [|ev evs IH]; intros g Hg Hp; [exact Hp|].
    change (mainloop (ev :: evs) g) with (mainloop evs (mainloop_step g ev)).
    apply IH; [apply consistent_step, Hg | apply mainloop_step_protocol];
      assumption. }
  apply H; [apply consistent_main | reflexivity].
Qed.

(** The checker does reject: a second capture object while one is in use, a
    read with none, a release through another one. *)
Example camera_protocol_rejects :
  camera_protocol None [CameraOpen 0 true; CameraOpen 1 true] = None
  /\ camera_protocol None [CameraRead 0] = None
  /\ camera_protocol None
       [CameraOpen 0 true; CameraRelease 0; CameraRelease 0] = None
  /\ camera_protocol None [CameraOpen 0 true; CameraRead 1] = None.
Proof. repeat split. Qed.

(** ** Ticks with nothing to show *)

Lemma filter_all_false {A : Type} (f : A -> bool) (l : list A) :
  (forall x, In x l -> f x = false) -> List.filter f l = [].
Proof.
  induction l as [|x l IH]; intros H; [reflexivity|]. simpl.
  rewrite (H x (or_introl eq_refl)). apply IH. intros y Hy. apply H. now right.
Qed.

(** X9: a tick in which no detection reaches [0.60] (none at all, or faint
    ones only) returns whatever the label table holds: no label is looked
    up.  It empties the results listing, shows the mirrored frame with
    nothing painted on it, and queues the next tick. *)
Theorem faint_tick_clears_listing (g : GUI) (v : VideoCapture)
    (img : Image) :
  is_running g = true -> cap g = Some v -> isOpened v = true ->
  (forall b,
     In b (predict (model g) (flip img 1) (confidence_slider g)) ->
     ge (conf b) lit_0_60 = false) ->
  exists g',
    update_frame (Some img) g = (Returned tt, g')
    /\ results_text g' = ""
    /\ video_label g' =
         Some (mkFrame (map (map swap_channels) (flip img 1)) [])
    /\ after_queue g' = S (after_queue g).
Proof.
  intros Hrun Hcap Hopen Hfaint.
  rewrite (update_frame_frame g v img Hrun Hcap Hopen). cbv zeta.
  set (boxes := predict (model g) (flip img 1) (confidence_slider g)) in *.
  assert (Hkept : List.filter spec_survives boxes = [])
    by (apply filter_all_false; exact Hfaint).
  assert (Hnone : first_unknown (names (model g)) boxes = None).
  { apply first_unknown_None. intros b Hin Hs.
    unfold spec_survives in Hs. rewrite (Hfaint b Hin) in Hs. discriminate. }
  rewrite Hnone, Hkept. eexists. split; [reflexivity|]. repeat split.
Qed.

Lemma faint_tick_clears_listing_witness :
  exists g',
    update_frame (Some Demo.img) Demo2.started_faint = (Returned tt, g')
    /\ results_text g' = "".
Proof.
  destruct (faint_tick_clears_listing Demo2.started_faint (mkCapture 0 true)
              Demo.img eq_refl eq_refl eq_refl) as (g' & Hup & Htext & _).
  - intros b [<-|[]]. reflexivity.
  - exists g'. split; [exact Hup | exact Htext].
Defined.

(** ** What a tick calls *)

(** X12: a tick that reads a frame and finds its labels makes these calls,
    in this order, and no other: one read through the capture object; one
    [predict] on the mirrored frame with the value the slider has at that
    moment; one deletion of the listing; one insertion for each detection
    kept, in order; one update of the picture; one [after(10, ...)]. *)
Theorem tick_call_sequence (g : GUI) (v : VideoCapture) (img : Image)
    (t : float) :
  is_running g = true -> cap g = Some v -> isOpened v = true ->
  let nm := names (model g) in
  let frame := flip img 1 in
  let kept := List.filter spec_survives (predict (model g) frame t) in
  (forall b, In b kept -> is_Some (nm !! cls b)) ->
  exists shown,
    video_label
      (snd (update_frame (Some img) (mainloop_step g (SliderSet t))))
      = Some shown
    /\ effects
         (snd (update_frame (Some img) (mainloop_step g (SliderSet t))))
       = effects g
           ++ [CameraRead (handle v); Predict frame t; ResultsDelete]
           ++ map (fun b => ResultsInsert (spec_line nm b +:+ newline)) kept
           ++ [LabelConfigure shown; After 10].
Proof.
  intros Hrun Hcap Hopen nm frame kept Hnames. simpl mainloop_step.
  rewrite (update_frame_frame (set_confidence_slider t g) v img);
    try solve [destruct g; assumption].
  cbv zeta.
  replace (model (set_confidence_slider t g)) with (model g)
    by (destruct g; reflexivity).
  replace (confidence_slider (set_confidence_slider t g)) with t
    by (destruct g; reflexivity).
  fold frame nm.
  replace (first_unknown nm (predict (model g) frame t)) with (@None Z).
  2:{ symmetry. apply first_unknown_None. intros b Hin Hs. apply Hnames.
      apply filter_In. split; assumption. }
  fold kept. eexists. split; [reflexivity|].
  destruct g; simpl. unfold tick_effects. simpl. rewrite map_map.
  reflexivity.
Qed.

Lemma tick_call_sequence_witness :
  exists shown,
    effects
      (snd (update_frame (Some Demo.img)
              (mainloop_step Demo.started (SliderSet lit_0_7))))
    = effects Demo.started
        ++ [CameraRead 0; Predict (flip Demo.img 1) lit_0_7; ResultsDelete;
            ResultsInsert ("Letter A: 0.91" +:+ newline);
            LabelConfigure shown; After 10].
Proof.
  destruct (tick_call_sequence Demo.started (mkCapture 0 true) Demo.img
              lit_0_7 eq_refl eq_refl eq_refl) as (shown & _ & He).
  - intros b [<-|[]]. exists "A". reflexivity.
  - exists shown. exact He.
Defined.

(** ** The two thresholds *)

Lemma SFleb_finite (s1 s2 : bool) (m1 m2 : positive) (e1 e2 : Z) :
  SFleb (S754_finite s1 m1 e1) (S754_finite s2 m2 e2) = true <->
  match s1, s2 with
  | true, false => True
  | false, true => False
  | false, false => (e1 < e2 \/ (e1 = e2 /\ (m1 <= m2)%positive))%Z
  | true, true => (e2 < e1 \/ (e1 = e2 /\ (m2 <= m1)%positive))%Z
  end.
Proof.
  unfold SFleb. simpl.
  change (Pos.compare_cont Eq m1 m2) with (m1 ?= m2)%positive.
  destruct s1, s2; try tauto; try (split; [discriminate | tauto]);
    destruct (Z.compare_spec e1 e2);
    destruct (Pos.compare_spec m1 m2); simpl;
    split; try discriminate; try tauto; try lia; intros _; lia.
Qed.

(** [>=] on floats is transitive, signed zeros and infinities included. *)
Lemma ge_trans (x y z : float) :
  ge x y = true -> ge y z = true -> ge x z = true.
Proof.
  unfold ge.
  destruct x as [sx|sx| |sx mx ex], y as [sy|sy| |sy my ey],
           z as [sz|sz| |sz mz ez];
    try (rewrite !SFleb_finite);
    try (unfold SFleb; simpl;
         repeat match goal with s : bool |- _ => destruct s end;
         simpl; congruence).
  all: intros H1 H2; unfold SFleb in *; simpl in *;
       repeat match goal with s : bool |- _ => destruct s end;
       simpl in *; try congruence; try tauto; try lia.
Qed.

Lemma filter_all_true {A : Type} (f : A -> bool) (l : list A) :
  (forall x, In x l -> f x = true) -> List.filter f l = l.
Proof.
  induction l as [|x l IH]; intros H; [reflexivity|]. simpl.
  rewrite (H x (or_introl eq_refl)). f_equal. apply IH.
  intros y Hy. apply H. now right.
Qed.

(** X7: the display cutoff only bites below [0.60].  With the slider at
    [0.60] or above, a tick whose detections are all at or above the value
    of the slider, as a model that honours its threshold returns them, lists
    and paints every one of them (the table having their labels): none is
    filtered out. *)
Theorem slider_above_cutoff_shows_all (g : GUI) (v : VideoCapture)
    (img : Image) :
  is_running g = true -> cap g = Some v -> isOpened v = true ->
  ge (confidence_slider g) lit_0_60 = true ->
  let nm := names (model g) in
  let frame := flip img 1 in
  let boxes := predict (model g) frame (confidence_slider g) in
  (forall b, In b boxes -> ge (conf b) (confidence_slider g) = true) ->
  (forall b, In b boxes -> is_Some (nm !! cls b)) ->
  exists g',
    update_frame (Some img) g = (Returned tt, g')
    /\ results_text g' = listing_text (map (spec_line nm) boxes)
    /\ video_label g' =
         Some (cvtColor_BGR2RGB
                 (mkFrame frame (flat_map (spec_overlay nm) boxes))).
Proof.
  intros Hrun Hcap Hopen Hslider nm frame boxes Hmodel Hnames.
  rewrite (update_frame_frame g v img Hrun Hcap Hopen). cbv zeta.
  fold frame nm boxes.
  assert (Hkept : List.filter spec_survives boxes = boxes).
  { apply filter_all_true. intros b Hin. unfold spec_survives.
    apply (ge_trans _ (confidence_slider g)); [|exact Hslider].
    exact (Hmodel b Hin). }
  replace (first_unknown nm boxes) with (@None Z).
  2:{ symmetry. apply first_unknown_None. intros b Hin _.
      exact (Hnames b Hin). }
  rewrite Hkept. eexists. split; [reflexivity|]. split; reflexivity.
Qed.

Lemma slider_above_cutoff_shows_all_witness :
  exists g',
    update_frame (Some Demo.img)
                 (mainloop_step Demo2.started_honest (SliderSet lit_0_7))
      = (Returned tt, g')
    /\ results_text g' = "Letter A: 0.91" +:+ newline.
Proof.
  destruct (slider_above_cutoff_shows_all
              (mainloop_step Demo2.started_honest (SliderSet lit_0_7))
              (mkCapture 0 true) Demo.img eq_refl eq_refl eq_refl eq_refl)
    as (g' & Hup & Htext & _).
  - intros b [<-|[]]. reflexivity.
  - intros b [<-|[]]. exists "A". reflexivity.
  - exists g'. split; [exact Hup | exact Htext].
Defined.

(** ** The confidences on display *)

Lemma digits2_pos_bounds (m : positive) :
  (2 ^ (Zpos (digits2_pos m) - 1) <= Zpos m < 2 ^ Zpos (digits2_pos m))%Z.
Proof.
  induction m as [p IH|p IH|]; simpl digits2_pos.
  - rewrite Pos2Z.inj_succ, (Pos2Z.inj_xI p).
    replace (Z.succ (Zpos (digits2_pos p)) - 1)%Z
      with (Z.succ (Zpos (digits2_pos p) - 1))%Z by lia.
    rewrite !Z.pow_succ_r by lia. lia.
  - rewrite Pos2Z.inj_succ, (Pos2Z.inj_xO p).
    replace (Z.succ (Zpos (digits2_pos p)) - 1)%Z
      with (Z.succ (Zpos (digits2_pos p) - 1))%Z by lia.
    rewrite !Z.pow_succ_r by lia. lia.
  - simpl. lia.
Qed.

Lemma fixed2_below_one (h : Z) :
  (0 <= h < 100)%Z ->
  fixed2 h = "0." +:+ digit (h / 10) +:+ digit (h mod 10).
Proof.
  intros Hh. unfold fixed2.
  rewrite (Z.div_small h 100), (Z.mod_small h 100) by lia. reflexivity.
Qed.

(** X8: a confidence that passes the display filter and is at most [1.0] is
    printed as a number from 0.60 to 1.00: the listing never shows a value
    below the cutoff, rounding included.  The printed text is ["1.00"] or
    ["0."] followed by the two digits of a number of hundredths between 60
    and 99. *)
Theorem shown_confidence_range (c : float) :
  valid_binary prec emax c = true ->
  ge c lit_0_60 = true -> ge lit_1_0 c = true ->
  exists h,
    (60 <= h <= 100)%Z
    /\ format_2f c = fixed2 h
    /\ format_2f c =
         if (h <? 100)%Z
         then "0." +:+ digit (h / 10) +:+ digit (h mod 10)
         else "1.00".
Proof.
  intros Hvalid Hlow Hhigh.
  destruct c as [s|s| |s m e]; try (destruct s; discriminate);
    try discriminate.
  unfold ge, lit_0_60, lit_1_0 in Hlow, Hhigh.
  rewrite SFleb_finite in Hlow, Hhigh.
  destruct s; [destruct Hlow|].
  unfold valid_binary, bounded, canonical_mantissa, fexp, emin, prec, emax
    in Hvalid.
  apply andb_prop in Hvalid as [Hcanon _]. apply Z.eqb_eq in Hcanon.
  pose proof (digits2_pos_bounds m) as Hm.
  destruct Hlow as [Hl|[Hl Hl2]]; destruct Hhigh as [Hh|[Hh Hh2]];
    try (exfalso; clear - Hl Hh; lia).
  - (* e = -52: the mantissa is that of 1.0 *)
    subst e. apply Pos2Z.pos_le_pos in Hh2.
    assert (Hd : Zpos (digits2_pos m) = 53%Z) by (clear - Hcanon; lia).
    rewrite Hd in Hm.
    change (2 ^ (53 - 1))%Z with 4503599627370496%Z in Hm.
    assert (Zpos m = 4503599627370496%Z) as Hm1 by (clear - Hm Hh2; lia).
    injection Hm1 as ->.
    exists 100%Z. split; [lia|]. split; reflexivity.
  - (* e = -53 *)
    subst e. apply Pos2Z.pos_le_pos in Hl2.
    assert (Hd : Zpos (digits2_pos m) = 53%Z) by (clear - Hcanon; lia).
    rewrite Hd in Hm. change (2 ^ 53)%Z with 9007199254740992%Z in Hm.
    destruct Hm as [_ Hm].
    unfold format_2f, scaled100.
    change (Z.pow_pos 2 53) with 9007199254740992%Z.
    set (h := round_half_even (100 * Zpos m) 9007199254740992).
    pose proof (round_half_even_nearest (100 * Zpos m) 9007199254740992
                  ltac:(lia)) as Hnear.
    fold h in Hnear.
    assert (Hh' : (60 <= h < 100 \/ h = 100)%Z) by (clear - Hnear Hm Hl2; lia).
    exists h. split; [clear - Hh'; lia|]. split; [reflexivity|].
    change (sign_prefix false +:+ fixed2 h) with (fixed2 h).
    destruct Hh' as [Hh' | ->]; [|reflexivity].
    replace (h <? 100)%Z with true by (symmetry; apply Z.ltb_lt; lia).
    apply fixed2_below_one. lia.
Qed.

Lemma shown_confidence_range_witness :
  exists h,
    (60 <= h <= 100)%Z /\ format_2f Demo.c_0_91 = fixed2 h.
Proof.
  destruct (shown_confidence_range Demo.c_0_91 eq_refl eq_refl eq_refl)
    as (h & Hh & Hf & _).
  exists h. split; [exact Hh | exact Hf].
Defined.

(** ** The picture on display *)

(** X10: when no detection reaches [0.60], so that nothing is painted on
    the frame, the picture a tick hands to the label is the camera frame
    seen in a mirror, with red and blue exchanged: nothing is painted on it,
    it has as many rows as the frame, and the pixel the camera delivered in
    column [j] of a row is shown, its first and third channel swapped, in
    the column that lies as far from the right edge as [j] lies from the
    left. *)
Theorem shown_pixel_mirrored (g : GUI) (v : VideoCapture) (img : Image) :
  is_running g = true -> cap g = Some v -> isOpened v = true ->
  (forall b,
     In b (predict (model g) (flip img 1) (confidence_slider g)) ->
     ge (conf b) lit_0_60 = false) ->
  exists shown,
    video_label (snd (update_frame (Some img) g)) = Some shown
    /\ painted shown = []
    /\ length (pixels shown) = length img
    /\ forall i j row p,
         nth_error img i = Some row -> nth_error row j = Some p ->
         pixel_at (pixels shown) i (length row - 1 - j)
         = Some (swap_channels p).
Proof.
  intros Hrun Hcap Hopen Hfaint.
  rewrite (update_frame_frame g v img Hrun Hcap Hopen). cbv zeta.
  set (boxes := predict (model g) (flip img 1) (confidence_slider g)) in *.
  assert (Hkept : List.filter spec_survives boxes = [])
    by (apply filter_all_false; exact Hfaint).
  assert (Hnone : first_unknown (names (model g)) boxes = None).
  { apply first_unknown_None. intros b Hin Hs.
    unfold spec_survives in Hs. rewrite (Hfaint b Hin) in Hs. discriminate. }
  rewrite Hnone, Hkept.
  eexists. split; [reflexivity|]. split; [reflexivity|]. simpl pixels. split.
  - rewrite !length_map. reflexivity.
  - intros i j row p Hrow Hp. unfold pixel_at.
    rewrite !nth_error_map, Hrow. simpl.
    rewrite nth_error_map, nth_error_rev.
    assert (Hj : (j < length row)%nat)
      by (apply nth_error_Some; congruence).
    replace (length row - 1 - j <? length row)%nat with true
      by (symmetry; apply Nat.ltb_lt; lia).
    replace (length row - S (length row - 1 - j))%nat with j by lia.
    rewrite Hp. reflexivity.
Qed.

Lemma shown_pixel_mirrored_witness :
  exists shown,
    video_label (snd (update_frame (Some Demo.img) Demo2.started_faint))
      = Some shown
    /\ painted shown = []
    /\ pixel_at (pixels shown) 0 1 = Some (Byte.x02, Byte.x01, Byte.x00).
Proof.
  destruct (shown_pixel_mirrored Demo2.started_faint (mkCapture 0 true)
              Demo.img eq_refl eq_refl eq_refl) as (shown & Hl & Hp & _ & Hpx).
  - intros b [<-|[]]. reflexivity.
  - exists shown. split; [exact Hl|]. split; [exact Hp|].
    exact (Hpx 0%nat 0%nat _ (Byte.x00, Byte.x01, Byte.x02) eq_refl eq_refl).
Defined.

(** ** The colours of the button *)

(** X11: whatever the pointer does and whatever text the button is given,
    the colours of a [ModernButton] are those of the last pointer event:
    highlight under white text while the pointer is on it, white under dark
    text once it has left, as when the button was made.  Background and text
    never have the same colour, the pointer never changes the text, and the
    text never changes the colours. *)
Theorem button_colours (s : string) (es : list ModernButton.event) :
  let w := ModernButton.run es (ModernButton.init s) in
  (ModernButton.bg w, ModernButton.fg w) =
    (if ModernButton.hovered es false
     then (MinimalStyle.HIGHLIGHT_COLOR, MinimalStyle.BG_COLOR)
     else (MinimalStyle.BG_COLOR, MinimalStyle.TEXT_COLOR))
  /\ ModernButton.bg w <> ModernButton.fg w
  /\ (ModernButton.hovered es false = true ->
      ModernButton.bg w = ModernButton.activebackground w
      /\ ModernButton.fg w = ModernButton.activeforeground w)
  /\ ModernButton.text w =
       ModernButton.last_text es s.
Proof.
  assert (H : forall (w0 : ModernButton.t) (h0 : bool),
    (ModernButton.bg w0, ModernButton.fg w0) =
      (if h0 then (MinimalStyle.HIGHLIGHT_COLOR, MinimalStyle.BG_COLOR)
       else (MinimalStyle.BG_COLOR, MinimalStyle.TEXT_COLOR)) ->
    ModernButton.activebackground w0 = MinimalStyle.HIGHLIGHT_COLOR ->
    ModernButton.activeforeground w0 = MinimalStyle.BG_COLOR ->
    let w := ModernButton.run es w0 in
    (ModernButton.bg w, ModernButton.fg w) =
      (if ModernButton.hovered es h0
       then (MinimalStyle.HIGHLIGHT_COLOR, MinimalStyle.BG_COLOR)
       else (MinimalStyle.BG_COLOR, MinimalStyle.TEXT_COLOR))
    /\ ModernButton.activebackground w = MinimalStyle.HIGHLIGHT_COLOR
    /\ ModernButton.activeforeground w = MinimalStyle.BG_COLOR
    /\ ModernButton.text w =
         ModernButton.last_text es (ModernButton.text w0)).
  { induction es as [|e es IH]; intros w0 h0 Hc Hab Haf; cbv zeta.
    - simpl. auto.
    - change (ModernButton.run (e :: es) w0)
        with (ModernButton.run es (ModernButton.deliver w0 e)).
      destruct e as [| |t]; simpl ModernButton.hovered;
        simpl ModernButton.last_text.
      + destruct (IH (ModernButton.on_enter w0) true eq_refl Hab Haf)
          as (H1 & H2 & H3 & H4). auto.
      + destruct (IH (ModernButton.on_leave w0) false eq_refl Hab Haf)
          as (H1 & H2 & H3 & H4). auto.
      + destruct (IH (ModernButton.config_text t w0) h0 Hc Hab Haf)
          as (H1 & H2 & H3 & H4).
        auto. }
  destruct (H (ModernButton.init s) false eq_refl eq_refl eq_refl)
    as (H1 & H2 & H3 & H4).
  cbv zeta. split; [exact H1|]. split; [|split; [|exact H4]].
  - destruct (ModernButton.hovered es false);
      injection H1 as Hb Hf; rewrite Hb, Hf; discriminate.
  - intros Hh. rewrite Hh in H1. injection H1 as Hb Hf.
    rewrite Hb, Hf, H2, H3. auto.
Qed.

Lemma button_colours_witness :
  let w := ModernButton.run
             [ModernButton.Enter; ModernButton.SetText "Stop Detection"]
             (ModernButton.init "Start Detection") in
  ModernButton.bg w = ModernButton.activebackground w
  /\ ModernButton.fg w = ModernButton.activeforeground w
  /\ ModernButton.text w = "Stop Detection".
Proof.
  destruct (button_colours "Start Detection"
              [ModernButton.Enter; ModernButton.SetText "Stop Detection"])
    as (_ & _ & Hactive & Htext).
  destruct (Hactive eq_refl) as [Hb Hf].
  cbv zeta. split; [exact Hb|]. split; [exact Hf | exact Htext].
Defined.
